(** * mozbp: Firefox credential store codec and mutation

    A shallow embedding of [mozbp.py] (a fork of ffpass).  Python values are
    modelled as follows.

    - [bytes] is a list of [byte]; indexing a [bytes] object yields an [int],
      which is a [Z] here.
    - [str] is a [string] holding the UTF-8 encoding of the text, so that
      [str.encode()] is the identity on the underlying bytes and
      [bytes.decode()] is a validity check.  A [str] that holds a lone
      surrogate, which [str.encode()] rejects, has no representation: a
      text is one whose bytes are valid UTF-8.
    - exceptions are the constructors of [exn]; a computation that can raise
      returns a [result].
    - a [dict] with string keys is a [gmap string _]: dicts are taken up to
      [==], the insertion order of their keys is not represented.
    - the third-party and standard-library primitives the program calls
      (hashlib, hmac, Crypto.Cipher.DES3, pyasn1, base64) form the
      interface [Libs]; what the program relies on is stated in [LibsLaws]. *)

From Stdlib Require Import ZArith Lia.
From Stdlib.Strings Require Import Byte.
From stdpp Require Import base option list gmap strings.

Local Open Scope Z_scope.

(** ** Exceptions and the error monad *)

Inductive exn : Set :=
  | NoDatabase          (* class NoDatabase(Exception), line 38 *)
  | WrongPassword       (* class WrongPassword(Exception), line 42 *)
  | AssertionError      (* a failed [assert] *)
  | IndexError          (* sequence index out of range *)
  | KeyError            (* missing dict key *)
  | ValueError          (* list.index miss, bytes() out of range, DES3 misuse *)
  | StopIteration       (* next() on an exhausted cursor *)
  | AttributeError      (* method missing on an ASN.1 object *)
  | PyAsn1Error         (* der_decode on malformed input *)
  | TypeError           (* an operand of the wrong type *)
  | BinasciiError       (* b64decode on malformed input *)
  | UnicodeDecodeError. (* bytes.decode() on invalid UTF-8 *)

Inductive result (A : Type) : Type :=
  | Ok (a : A)
  | Err (e : exn).
Arguments Ok {A} a.
Arguments Err {A} e.

#[global] Instance exn_eq_dec : EqDecision exn.
Proof. solve_decision. Defined.

#[global] Instance result_ret : MRet result := @Ok.
#[global] Instance result_bind : MBind result := fun A B f m =>
  match m with
  | Ok a => f a
  | Err e => Err e
  end.

(** A library call that fails raises the exception [e]. *)
Definition raising {A} (e : exn) (o : option A) : result A :=
  match o with
  | Some a => Ok a
  | None => Err e
  end.

Definition is_Ok {A} (r : result A) : Prop := exists a, r = Ok a.
Definition is_Err {A} (r : result A) : Prop := exists e, r = Err e.

(** ** Python sequences *)

Abbreviation bytes := (list byte).

#[global] Instance byte_eq_dec : EqDecision byte := Byte.byte_eq_dec.

Definition int_of_byte (c : byte) : Z := Z.of_N (Byte.to_N c).

(** [len(xs)] *)
Definition py_len {A} (xs : list A) : Z := Z.of_nat (length xs).

(** [xs[i]], negative indices count from the end. *)
Definition py_getitem {A} (xs : list A) (i : Z) : result A :=
  let j := if i <? 0 then i + py_len xs else i in
  if (j <? 0) || (py_len xs <=? j) then Err IndexError
  else raising IndexError (xs !! Z.to_nat j).

(** A slice bound is clamped into [0, len]. *)
Definition py_bound {A} (xs : list A) (i : Z) : nat :=
  Z.to_nat (if i <? 0 then Z.max 0 (i + py_len xs) else Z.min (py_len xs) i).

(** [xs[:stop]] *)
Definition py_slice_to {A} (xs : list A) (stop : Z) : list A :=
  take (py_bound xs stop) xs.

(** [xs[start:]] *)
Definition py_slice_from {A} (xs : list A) (start : Z) : list A :=
  drop (py_bound xs start) xs.

(** [xs * n]; a count below one gives the empty sequence. *)
Definition py_mul {A} (xs : list A) (n : Z) : list A :=
  mjoin (replicate (Z.to_nat n) xs).

(** [bytes(ints)] raises ValueError unless every item is in range(256). *)
Definition py_byte (z : Z) : result byte :=
  if (z <? 0) || (256 <=? z) then Err ValueError
  else raising ValueError (Byte.of_N (Z.to_N z)).

Fixpoint py_bytes (zs : list Z) : result bytes :=
  match zs with
  | [] => Ok []
  | z :: zs' => c ← py_byte z; cs ← py_bytes zs'; mret (c :: cs)
  end.

(** ** Constants (lines 34-35, 64) *)

Definition MAGIC1 : bytes :=
  [xf8; x00; x00; x00; x00; x00; x00; x00; x00; x00; x00; x00; x00; x00; x00; x01]%byte.

Definition MAGIC2 : list Z := [1; 2; 840; 113549; 3; 7].

(** [b"password-check\x02\x02"] *)
Definition PASSWORD_CHECK : bytes :=
  [x70; x61; x73; x73; x77; x6f; x72; x64; x2d; x63; x68; x65; x63; x6b; x02; x02]%byte.

(** ** Padding (lines 81-87) *)

Definition PKCS7pad (b : bytes) : result bytes :=
  let l := (- py_len b - 1) mod 8 + 1 in
  pad ← py_bytes (py_mul [l] l);
  mret (b ++ pad).

Definition PKCS7unpad (b : bytes) : result bytes :=
  c ← py_getitem b (-1);
  mret (py_slice_to b (- int_of_byte c)).

(** ** Text (str.encode(), bytes.decode()) *)

Definition in_range (lo hi : Z) (c : byte) : bool :=
  (lo <=? int_of_byte c) && (int_of_byte c <=? hi).

Definition utf8_cont (c : byte) : bool := in_range 0x80 0xbf c.

(** Lead byte and first continuation byte of a three-byte sequence:
    no overlong forms, no surrogates. *)
Definition utf8_lead3 (c1 c2 : byte) : bool :=
  (in_range 0xe0 0xe0 c1 && in_range 0xa0 0xbf c2)
  || (in_range 0xe1 0xec c1 && utf8_cont c2)
  || (in_range 0xed 0xed c1 && in_range 0x80 0x9f c2)
  || (in_range 0xee 0xef c1 && utf8_cont c2).

(** The same for a four-byte sequence: U+10000 to U+10FFFF. *)
Definition utf8_lead4 (c1 c2 : byte) : bool :=
  (in_range 0xf0 0xf0 c1 && in_range 0x90 0xbf c2)
  || (in_range 0xf1 0xf3 c1 && utf8_cont c2)
  || (in_range 0xf4 0xf4 c1 && in_range 0x80 0x8f c2).

Fixpoint utf8_valid (b : bytes) : bool :=
  match b with
  | [] => true
  | c1 :: r1 =>
    if in_range 0 0x7f c1 then utf8_valid r1 else
    match r1 with
    | [] => false
    | c2 :: r2 =>
      if in_range 0xc2 0xdf c1 then utf8_cont c2 && utf8_valid r2 else
      match r2 with
      | [] => false
      | c3 :: r3 =>
        if utf8_lead3 c1 c2 then utf8_cont c3 && utf8_valid r3 else
        match r3 with
        | [] => false
        | c4 :: r4 => utf8_lead4 c1 c2 && utf8_cont c3 && utf8_cont c4 && utf8_valid r4
        end
      end
    end
  end.

(** [s.encode()] *)
Definition str_encode (s : string) : bytes := String.list_byte_of_string s.

(** [b.decode()] *)
Definition bytes_decode (b : bytes) : result string :=
  if utf8_valid b then Ok (String.string_of_list_byte b) else Err UnicodeDecodeError.

(** ** ASN.1 values (pyasn1.type.univ) *)

Inductive asn1 : Type :=
  | OctetString (octets : bytes)
  | ObjectIdentifier (arcs : list Z)
  | Integer (z : Z)
  | Sequence (components : list asn1).

(** [v[i]] on a decoded value.  Only a Sequence has components; what indexing
    another object yields supports none of the operations the program
    applies next, so the failure is raised here. *)
Definition asn1_getitem (v : asn1) (i : Z) : result asn1 :=
  match v with
  | Sequence components => py_getitem components i
  | _ => Err AttributeError
  end.

Definition asOctets (v : asn1) : result bytes :=
  match v with
  | OctetString octets => Ok octets
  | _ => Err AttributeError
  end.

Definition asTuple (v : asn1) : result (list Z) :=
  match v with
  | ObjectIdentifier arcs => Ok arcs
  | _ => Err AttributeError
  end.

(** ** The library interface *)

Class Libs : Type := {
  (** [hashlib.sha1(m).digest()] *)
  sha1 : bytes -> bytes;
  (** [hmac.new(key, msg, sha1).digest()] *)
  hmac_sha1 : bytes -> bytes -> bytes;
  (** a [DES3] cipher object in CBC mode *)
  des3 : Type;
  (** [DES3.new(key, DES3.MODE_CBC, iv)] *)
  DES3_new : bytes -> bytes -> option des3;
  (** [des.encrypt(m)], [des.decrypt(c)] *)
  des3_encrypt : des3 -> bytes -> option bytes;
  des3_decrypt : des3 -> bytes -> option bytes;
  (** the keys [DES3.new] accepts *)
  des3_key_ok : bytes -> bool;
  (** [pyasn1.codec.der] *)
  der_encode : asn1 -> bytes;
  der_decode : bytes -> option (asn1 * bytes);
  (** [base64] *)
  b64encode : bytes -> bytes;
  b64decode : string -> option bytes;
}.

(** The value [encodeLoginData] builds at lines 118-123. *)
Definition login_envelope (iv ciphertext : bytes) : asn1 :=
  Sequence [OctetString MAGIC1;
            Sequence [ObjectIdentifier MAGIC2; OctetString iv];
            OctetString ciphertext].

(** The contract of the libraries that the round trips below rely on. *)
Class LibsLaws (L : Libs) : Prop := {
  sha1_length : forall m, length (sha1 m) = 20%nat;
  hmac_sha1_length : forall k m, length (hmac_sha1 k m) = 20%nat;
  DES3_new_ok : forall key iv,
    des3_key_ok key = true -> length iv = 8%nat -> is_Some (DES3_new key iv);
  des3_round_trip : forall key iv des des' m,
    DES3_new key iv = Some des -> DES3_new key iv = Some des' ->
    (8 | py_len m) ->
    exists c, des3_encrypt des m = Some c /\ des3_decrypt des' c = Some m;
  der_round_trip : forall iv ciphertext,
    length iv = 8%nat ->
    der_decode (der_encode (login_envelope iv ciphertext))
    = Some (login_envelope iv ciphertext, []);
  b64encode_ascii : forall b, utf8_valid (b64encode b) = true;
  b64_round_trip : forall b,
    b64decode (String.string_of_list_byte (b64encode b)) = Some b;
}.

Section Program.
Context {L : Libs}.

(** ** Key derivation (lines 90-100) *)

Definition decrypt3DES (globalSalt : bytes) (masterPassword : string)
    (entrySalt encryptedData : bytes) : result bytes :=
  let hp := sha1 (globalSalt ++ str_encode masterPassword) in
  let pes := entrySalt ++ py_mul [x00%byte] (20 - py_len entrySalt) in
  let chp := sha1 (hp ++ entrySalt) in
  let k1 := hmac_sha1 chp (pes ++ entrySalt) in
  let tk := hmac_sha1 chp pes in
  let k2 := hmac_sha1 chp (tk ++ entrySalt) in
  let k := k1 ++ k2 in
  let iv := py_slice_from k (-8) in
  let key := py_slice_to k 24 in
  des ← raising ValueError (DES3_new key iv);
  raising ValueError (des3_decrypt des encryptedData).

(** ** Credential codec (lines 103-124) *)

Definition decodeLoginData (key : bytes) (data : string) : result string :=
  raw ← raising BinasciiError (b64decode data);
  '(asn1data, _) ← raising PyAsn1Error (der_decode raw);
  marker ← (a ← asn1_getitem asn1data 0; asOctets a);
  if negb (bool_decide (marker = MAGIC1)) then Err AssertionError else
  oid ← (a ← asn1_getitem asn1data 1; b ← asn1_getitem a 0; asTuple b);
  if negb (bool_decide (oid = MAGIC2)) then Err AssertionError else
  iv ← (a ← asn1_getitem asn1data 1; b ← asn1_getitem a 1; asOctets b);
  ciphertext ← (a ← asn1_getitem asn1data 2; asOctets a);
  des ← raising ValueError (DES3_new key iv);
  plain ← raising ValueError (des3_decrypt des ciphertext);
  unpadded ← PKCS7unpad plain;
  bytes_decode unpadded.

(** [iv] is the value drawn by [secrets.token_bytes(8)]. *)
Definition encodeLoginData (key : bytes) (iv : bytes) (data : string) : result string :=
  des ← raising ValueError (DES3_new key iv);
  padded ← PKCS7pad (str_encode data);
  ciphertext ← raising ValueError (des3_encrypt des padded);
  let asn1data :=
    Sequence [OctetString MAGIC1;
              Sequence [ObjectIdentifier MAGIC2; OctetString iv];
              OctetString ciphertext] in
  bytes_decode (b64encode (der_encode asn1data)).

(** ** Master key (lines 46-78) *)

(** The SQLite file [key4.db]: the rows of
    [SELECT item1,item2 FROM metadata WHERE id = 'password'] and of
    [SELECT a11,a102 FROM nssPrivate], in cursor order. *)
Record keydb : Type := {
  metadata_password : list (bytes * bytes);
  nssPrivate : list (bytes * bytes);
}.

(** [x[0][1][0].asOctets()] and [x[1].asOctets()] (lines 59-60 and 75-76) *)
Definition pbe_entrySalt (decoded : asn1) : result bytes :=
  a ← asn1_getitem decoded 0;
  b ← asn1_getitem a 1;
  c ← asn1_getitem b 0;
  asOctets c.

Definition pbe_cipherT (decoded : asn1) : result bytes :=
  a ← asn1_getitem decoded 1;
  asOctets a.

(** The loop of lines 69-71.  [row] is the loop variable: it keeps the value
    it had before the loop when the cursor yields nothing, and the last row
    when no row has the marker. *)
Fixpoint nssPrivate_scan (c : list (bytes * bytes)) (row : bytes * bytes)
    : bytes * bytes :=
  match c with
  | [] => row
  | row' :: c' =>
    if bool_decide (row'.2 = MAGIC1) then row' else nssPrivate_scan c' row'
  end.

(** Lines 68-78: the master key, once the password has been checked.  [c]
    is the cursor over [nssPrivate]; [row] and [globalSalt] are the
    variables as the check leaves them. *)
Definition getKey_master (c : list (bytes * bytes)) (row : bytes * bytes)
    (globalSalt : bytes) (masterPassword : string) : result bytes :=
  let row := nssPrivate_scan c row in
  let a11 := row.1 in
  if negb (bool_decide (row.2 = MAGIC1)) then Err AssertionError else
  '(decodedA11, _) ← raising PyAsn1Error (der_decode a11);
  entrySalt ← pbe_entrySalt decodedA11;
  cipherT ← pbe_cipherT decodedA11;
  key ← decrypt3DES globalSalt masterPassword entrySalt cipherT;
  mret (py_slice_to key 24).

(** Lines 46-65, then [getKey_master].  [directory] is [None] when
    [directory / "key4.db"] does not exist. *)
Definition getKey (directory : option keydb) (masterPassword : string)
    : result bytes :=
  match directory with
  | None => Err NoDatabase
  | Some conn =>
    row ← raising StopIteration (head (metadata_password conn));
    let globalSalt := row.1 in
    let item2 := row.2 in
    '(decodedItem2, _) ← raising PyAsn1Error (der_decode item2);
    entrySalt ← pbe_entrySalt decodedItem2;
    cipherT ← pbe_cipherT decodedItem2;
    clearText ← decrypt3DES globalSalt masterPassword entrySalt cipherT;
    if negb (bool_decide (clearText = PASSWORD_CHECK)) then Err WrongPassword else
    getKey_master (nssPrivate conn) row globalSalt masterPassword
  end.

(** ** The credential document (logins.json) *)

(** The values of a record's fields. *)
Inductive value : Type :=
  | VNone
  | VBool (b : bool)
  | VInt (z : Z)
  | VStr (s : string).

(** [jsonLogins]: the keys the program reads, each possibly absent.  The
    counter, when present, is an integer; a counter that is present and not
    a number, on which line 201 raises TypeError after the append of line
    200, is outside this model. *)
Record document : Type := {
  logins : option (list (gmap string value));
  nextId : option Z;
}.

(** The [login] argument of [addNewLogin] and [delNewLogin]. *)
Record credential : Type := {
  cred_hostname : string;
  cred_login : string;
  cred_password : string;
}.

(** [a == b] on field values: a bool is the integer 0 or 1. *)
Definition value_eq (a b : value) : bool :=
  match a, b with
  | VNone, VNone => true
  | VStr s, VStr t => bool_decide (s = t)
  | VInt x, VInt y => bool_decide (x = y)
  | VBool x, VBool y => bool_decide (x = y)
  | VInt x, VBool y | VBool y, VInt x => bool_decide (x = Z.b2z y)
  | _, _ => false
  end.

(** [a == b] on dicts: the same keys, with equal values. *)
Definition dict_eq (a b : gmap string value) : bool :=
  bool_decide (dom a = dom b)
  && forallb (fun kv => match b !! kv.1 with
                        | Some w => value_eq kv.2 w
                        | None => false
                        end) (map_to_list a).

(** [xs.index(x)] *)
Fixpoint py_index (xs : list (gmap string value)) (x : gmap string value)
    : result nat :=
  match xs with
  | [] => Err ValueError
  | y :: ys => if dict_eq y x then Ok 0%nat else i ← py_index ys x; mret (S i)
  end.

(** A field that is passed to [b64decode] has to be a str. *)
Definition as_str (v : value) : result string :=
  match v with
  | VStr s => Ok s
  | _ => Err TypeError
  end.

(** [row[field]] *)
Definition row_getitem (row : gmap string value) (field : string) : result value :=
  raising KeyError (row !! field).

(** ** Export (lines 138-154) *)

(** The body of the loop over [fields] (lines 147-152). *)
Definition export_field (key : bytes) (row blank : gmap string value)
    (field : string) : result (gmap string value) :=
  if bool_decide (field = "password") then
    data ← row_getitem row "encryptedPassword";
    data ← as_str data;
    s ← decodeLoginData key data;
    mret (<["password" := VStr s]> blank)
  else if bool_decide (field = "login") then
    data ← row_getitem row "encryptedUsername";
    data ← as_str data;
    s ← decodeLoginData key data;
    mret (<["login" := VStr s]> blank)
  else
    v ← row_getitem row field;
    mret (<[field := v]> blank).

Fixpoint export_fields (key : bytes) (row : gmap string value)
    (fields : list string) (blank : gmap string value)
    : result (gmap string value) :=
  match fields with
  | [] => Ok blank
  | field :: fields' =>
    blank' ← export_field key row blank field;
    export_fields key row fields' blank'
  end.

(** The loop over [jsonLogins["logins"]] (lines 144-153). *)
Fixpoint export_rows (key : bytes) (rows : list (gmap string value))
    (fields : list string) (acc : list (gmap string value))
    : result (list (gmap string value)) :=
  match rows with
  | [] => Ok acc
  | row :: rows' =>
    blank ← export_fields key row fields ∅;
    export_rows key rows' fields (acc ++ [blank])
  end.

(** The result comes with the lines printed to stderr. *)
Definition exportLogins (key : bytes) (jsonLogins : document)
    (fields : list string)
    : list string * result (list (gmap string value)) :=
  match logins jsonLogins with
  | None => (["error: no 'logins' key in logins.json"], Ok [])
  | Some rows => ([], export_rows key rows fields [])
  end.

(** ** Mutation (lines 180-222) *)

Definition getLogin (url login password : string) (key : bytes)
    (jsonLogins : document) : list string * result nat :=
  let (err, exported) :=
    exportLogins key jsonLogins ["hostname"; "login"; "password"] in
  (err,
   logins ← exported;
   py_index logins
     (<["hostname" := VStr url]>
        (<["login" := VStr login]> (<["password" := VStr password]> ∅)))).

(** What [addNewLogin] takes from its environment: the clock, the two
    initialisation vectors drawn by [encodeLoginData], and [uuid4()]. *)
Record add_env : Type := {
  env_timestamp : Z;
  env_iv_username : bytes;
  env_iv_password : bytes;
  env_uuid : string;
}.

(** The dict literal of lines 184-199. *)
Definition new_entry (nextId_ timestamp : Z) (hostname_ : string)
    (encryptedUsername encryptedPassword guid : string) : gmap string value :=
  list_to_map
    [("id", VInt nextId_);
     ("hostname", VStr hostname_);
     ("httpRealm", VNone);
     ("formSubmitURL", VStr EmptyString);
     ("usernameField", VStr EmptyString);
     ("passwordField", VStr EmptyString);
     ("encryptedUsername", VStr encryptedUsername);
     ("encryptedPassword", VStr encryptedPassword);
     ("guid", VStr guid);
     ("encType", VInt 1);
     ("timeCreated", VInt timestamp);
     ("timeLastUsed", VInt timestamp);
     ("timePasswordChanged", VInt timestamp);
     ("timesUsed", VInt 0)].

(** A mutator returns its outcome and the document as it leaves it. *)
Definition addNewLogin (env : add_env) (key : bytes) (jsonLogins : document)
    (login : credential) : result unit * document :=
  match nextId jsonLogins with
  | None => (Err KeyError, jsonLogins)
  | Some nextId_ =>
    let timestamp := env_timestamp env in
    match
      encryptedUsername ← encodeLoginData key (env_iv_username env) (cred_login login);
      encryptedPassword ← encodeLoginData key (env_iv_password env) (cred_password login);
      mret (new_entry nextId_ timestamp (cred_hostname login)
              encryptedUsername encryptedPassword
              ("{" +:+ env_uuid env +:+ "}"))
    with
    | Err e => (Err e, jsonLogins)
    | Ok entry =>
      match logins jsonLogins with
      | None => (Err KeyError, jsonLogins)
      | Some rows =>
        let appended := {| logins := Some (rows ++ [entry]);
                           nextId := nextId jsonLogins |} in
        match nextId appended with
        | None => (Err KeyError, appended)
        | Some n => (Ok (), {| logins := logins appended; nextId := Some (n + 1) |})
        end
      end
    end
  end.

Definition delNewLogin (key : bytes) (jsonLogins : document)
    (login : credential) : list string * (result unit * document) :=
  let (err, found) :=
    getLogin (cred_hostname login) (cred_login login) (cred_password login)
      key jsonLogins in
  (err,
   match found with
   | Err e => (Err e, jsonLogins)
   | Ok replace_index =>
     match logins jsonLogins with
     | None => (Err KeyError, jsonLogins)
     | Some rows =>
       if bool_decide (replace_index < length rows)%nat then
         let deleted := {| logins := Some (delete replace_index rows);
                           nextId := nextId jsonLogins |} in
         match nextId deleted with
         | None => (Err KeyError, deleted)
         | Some n => (Ok (), {| logins := logins deleted; nextId := Some (n - 1) |})
         end
       else (Err IndexError, jsonLogins)
     end
   end).

(** A caller's sequence of mutations. *)
Inductive op : Type :=
  | OpAdd (env : add_env) (login : credential)
  | OpDel (login : credential).

Definition apply_op (key : bytes) (jsonLogins : document) (o : op)
    : result unit * document :=
  match o with
  | OpAdd env login => addNewLogin env key jsonLogins login
  | OpDel login => (delNewLogin key jsonLogins login).2
  end.

(** The document after the whole sequence; an operation that raises leaves
    the document as it was at the raise and the caller goes on. *)
Fixpoint apply_ops (key : bytes) (jsonLogins : document) (os : list op)
    : document :=
  match os with
  | [] => jsonLogins
  | o :: os' => apply_ops key (apply_op key jsonLogins o).2 os'
  end.

End Program.

(** ** A sample implementation of the interface

    Small stand-ins for the libraries, to run the program on concrete
    inputs: the byte sum, repeated, for SHA-1, a bytewise shift cipher keyed by
    the first key byte for triple DES, a one-byte tag in front of the two
    fixed shapes of [key4.db] and [logins.json] for DER, and base 16 for
    base 64. *)

Module Sample.

Definition byte_of_N (n : N) : byte := default x00%byte (Byte.of_N n).

Definition byte_add (k c : byte) : byte :=
  byte_of_N ((Byte.to_N c + Byte.to_N k) mod 256)%N.

Definition byte_sub (k c : byte) : byte :=
  byte_of_N ((Byte.to_N c + 256 - Byte.to_N k) mod 256)%N.

Definition checksum (m : bytes) : bytes := replicate 20 (foldr byte_add x00%byte m).

Definition keyed_checksum (k m : bytes) : bytes := checksum (k ++ m).

Definition shift_key_ok (key : bytes) : bool := bool_decide (length key = 24%nat).

Definition shift_new (key iv : bytes) : option (bytes * bytes) :=
  if shift_key_ok key && bool_decide (length iv = 8%nat)
  then Some (key, iv) else None.

Definition shift_encrypt (des : bytes * bytes) (m : bytes) : option bytes :=
  if bool_decide (py_len m mod 8 = 0)
  then Some (byte_add (hd x00%byte des.1) <$> m) else None.

Definition shift_decrypt (des : bytes * bytes) (c : bytes) : option bytes :=
  if bool_decide (py_len c mod 8 = 0)
  then Some (byte_sub (hd x00%byte des.1) <$> c) else None.

(** The shape of the two [key4.db] items: an algorithm identifier with its
    parameters (entry salt, iteration count), then the ciphertext. *)
Definition pbe_envelope (entrySalt cipherT : bytes) : asn1 :=
  Sequence [Sequence [ObjectIdentifier [1; 2; 840; 113549; 1; 12; 5; 1; 3];
                      Sequence [OctetString entrySalt; Integer 1]];
            OctetString cipherT].

Definition tag_encode (v : asn1) : bytes :=
  match v with
  | Sequence [OctetString _; Sequence [ObjectIdentifier _; OctetString iv];
              OctetString ciphertext] =>
      x01%byte :: byte_of_N (N.of_nat (length iv)) :: iv ++ ciphertext
  | Sequence [Sequence [ObjectIdentifier _;
                        Sequence [OctetString entrySalt; Integer _]];
              OctetString cipherT] =>
      x00%byte :: byte_of_N (N.of_nat (length entrySalt)) :: entrySalt ++ cipherT
  | _ => []
  end.

Definition tag_decode (b : bytes) : option (asn1 * bytes) :=
  match b with
  | tag :: n :: rest =>
    let n := N.to_nat (Byte.to_N n) in
    if bool_decide (n ≤ length rest)%nat then
      if bool_decide (tag = x01%byte)
      then Some (login_envelope (take n rest) (drop n rest), [])
      else if bool_decide (tag = x00%byte)
      then Some (pbe_envelope (take n rest) (drop n rest), [])
      else None
    else None
  | _ => None
  end.

Definition hex_digit (n : N) : byte :=
  byte_of_N (if (n <? 10)%N then 48 + n else 87 + n)%N.

Definition hex_value (c : byte) : option N :=
  let n := Byte.to_N c in
  if (48 <=? n)%N && (n <=? 57)%N then Some (n - 48)%N
  else if (97 <=? n)%N && (n <=? 102)%N then Some (n - 87)%N
  else None.

Definition hex_encode (b : bytes) : bytes :=
  c ← b; [hex_digit (Byte.to_N c / 16); hex_digit (Byte.to_N c mod 16)].

Fixpoint unhex (b : bytes) : option bytes :=
  match b with
  | [] => Some []
  | h :: l :: b' =>
    hi ← hex_value h; lo ← hex_value l; c ← Byte.of_N (16 * hi + lo);
    cs ← unhex b'; Some (c :: cs)
  | _ => None
  end.

Definition hex_decode (s : string) : option bytes :=
  unhex (String.list_byte_of_string s).

Definition libs : Libs := {|
  sha1 := checksum;
  hmac_sha1 := keyed_checksum;
  des3 := bytes * bytes;
  DES3_new := shift_new;
  des3_encrypt := shift_encrypt;
  des3_decrypt := shift_decrypt;
  des3_key_ok := shift_key_ok;
  der_encode := tag_encode;
  der_decode := tag_decode;
  b64encode := hex_encode;
  b64decode := hex_decode;
|}.

End Sample.

(** ** The key derivation as the specification words it (section 4.2) *)

Section KeyDerivationSpec.
Context {L : Libs}.

(** Step 2: the entry salt padded with zero bytes to 20 bytes; the padding
    is dropped when the salt has 20 bytes or more. *)
Definition paddedEntrySalt_spec (entrySalt : bytes) : bytes :=
  if bool_decide (length entrySalt < 20)%nat
  then entrySalt ++ replicate (20 - length entrySalt) x00%byte
  else entrySalt.

Definition first_bytes (n : nat) (b : bytes) : bytes := take n b.

Definition last_bytes (n : nat) (b : bytes) : bytes := reverse (take n (reverse b)).

(** Steps 1 to 7: the pair (key, iv). *)
Definition derive_spec (globalSalt : bytes) (password : string)
    (entrySalt : bytes) : bytes * bytes :=
  let hp := sha1 (globalSalt ++ str_encode password) in
  let paddedEntrySalt := paddedEntrySalt_spec entrySalt in
  let chp := sha1 (hp ++ entrySalt) in
  let k1 := hmac_sha1 chp (paddedEntrySalt ++ entrySalt) in
  let tk := hmac_sha1 chp paddedEntrySalt in
  let k2 := hmac_sha1 chp (tk ++ entrySalt) in
  let combined := k1 ++ k2 in
  (first_bytes 24 combined, last_bytes 8 combined).

End KeyDerivationSpec.

(** ** The identifier invariant of the specification (section 3) *)

Definition row_id (row : gmap string value) : option Z :=
  match row !! "id" with
  | Some (VInt z) => Some z
  | _ => None
  end.

(** Every record's identifier is unique and less than the counter. *)
Definition doc_inv (jsonLogins : document) : Prop :=
  match logins jsonLogins, nextId jsonLogins with
  | Some rows, Some n =>
    exists ids, mapM row_id rows = Some ids /\ NoDup ids /\ Forall (fun i => i < n) ids
  | _, _ => False
  end.

(** ** What a record decrypts to *)

Section Decrypted.
Context {L : Libs}.

(** The triple [getLogin] compares: the stored hostname and the decrypted
    user name and password, read in the order of the field list. *)
Definition row_triple (key : bytes) (row : gmap string value)
    : result (value * string * string) :=
  h ← row_getitem row "hostname";
  u ← (data ← row_getitem row "encryptedUsername"; data ← as_str data;
       decodeLoginData key data);
  p ← (data ← row_getitem row "encryptedPassword"; data ← as_str data;
       decodeLoginData key data);
  mret (h, u, p).

(** One requested field of an exported record. *)
Definition field_exported (key : bytes) (row : gmap string value)
    (field : string) (v : value) : Prop :=
  if bool_decide (field = "password") then
    exists data s, row !! "encryptedPassword" = Some (VStr data)
                   /\ decodeLoginData key data = Ok s /\ v = VStr s
  else if bool_decide (field = "login") then
    exists data s, row !! "encryptedUsername" = Some (VStr data)
                   /\ decodeLoginData key data = Ok s /\ v = VStr s
  else row !! field = Some v.

(** An exported record holds the requested fields and nothing else. *)
Definition row_exported (key : bytes) (fields : list string)
    (row out : gmap string value) : Prop :=
  (forall f, f ∈ fields -> exists v, out !! f = Some v /\ field_exported key row f v)
  /\ (forall f, f ∉ fields -> out !! f = None).

(** Every requested field of the record is there to export. *)
Definition row_exportable (key : bytes) (fields : list string)
    (row : gmap string value) : Prop :=
  forall f, f ∈ fields -> exists v, field_exported key row f v.

End Decrypted.

(** The dict literal of lines 217-221, for the triple of [login]. *)
Definition credential_dict (login : credential) : gmap string value :=
  <["hostname" := VStr (cred_hostname login)]>
    (<["login" := VStr (cred_login login)]>
       (<["password" := VStr (cred_password login)]> ∅)).

(** What [exportLogins] makes of a record for the three fields. *)
Definition triple_dict (t : value * string * string) : gmap string value :=
  <["password" := VStr t.2]>
    (<["login" := VStr t.1.2]> (<["hostname" := t.1.1]> ∅)).

Definition credential_triple (login : credential) : value * string * string :=
  (VStr (cred_hostname login), cred_login login, cred_password login).

Definition mk_document (rows : list (gmap string value)) (n : Z) : document :=
  {| logins := Some rows; nextId := Some n |}.

(** The exceptions of the repository are raised by [getKey] itself and by
    nothing it calls. *)
Definition foreign (e : exn) : Prop := e ≠ NoDatabase /\ e ≠ WrongPassword.

(** ** Concrete inputs *)

Module Fixture.
Import Sample.

Definition key : bytes :=
  [x01; x02; x03; x04; x05; x06; x07; x08; x09; x0a; x0b; x0c;
   x0d; x0e; x0f; x10; x11; x12; x13; x14; x15; x16; x17; x18]%byte.

Definition iv1 : bytes := [xa0; xa1; xa2; xa3; xa4; xa5; xa6; xa7]%byte.
Definition iv2 : bytes := [xb0; xb1; xb2; xb3; xb4; xb5; xb6; xb7]%byte.

(** A credential field whose ciphertext decrypts to [plain]. *)
Definition field_of_plain (plain : bytes) : string :=
  String.string_of_list_byte
    (hex_encode (tag_encode (login_envelope iv1 (byte_add x01%byte <$> plain)))).

(** Decrypted data of 16 bytes whose last byte is 9. *)
Definition field_pad9 : string :=
  field_of_plain (replicate 7 x41%byte ++ replicate 9 x09%byte).

(** Decrypted data of 8 bytes whose last byte is 0. *)
Definition field_pad0 : string :=
  field_of_plain (replicate 7 x41%byte ++ [x00%byte]).

(** A key store under the password "secret". *)
Definition globalSalt : bytes := [x73; x61; x6c; x74]%byte.
Definition entrySalt : bytes := [x0a; x0b; x0c]%byte.

(** An item of [key4.db] whose ciphertext decrypts to [plain] under the key
    derived from [password]. *)
Definition pbe_item (password : string) (plain : bytes) : bytes :=
  tag_encode
    (pbe_envelope entrySalt
       (byte_add
          (hd x00%byte (derive_spec (L := libs) globalSalt password entrySalt).1)
        <$> plain)).

Definition master_material : bytes :=
  [xc1; xc2; xc3; xc4; xc5; xc6; xc7; xc8; xc9; xca; xcb; xcc;
   xcd; xce; xcf; xd0; xd1; xd2; xd3; xd4; xd5; xd6; xd7; xd8;
   x08; x08; x08; x08; x08; x08; x08; x08]%byte.

Definition store : keydb := {|
  metadata_password := [(globalSalt, pbe_item "secret" PASSWORD_CHECK)];
  nssPrivate := [([x00%byte], replicate 16 x00%byte);
                 (pbe_item "secret" master_material, MAGIC1)];
|}.

(** The same store after the master key row is lost. *)
Definition broken_store : keydb := {|
  metadata_password := metadata_password store;
  nssPrivate := [([x00%byte], replicate 16 x00%byte)];
|}.

(** Credentials and the environments of three calls of [addNewLogin]. *)
Definition alice : credential :=
  {| cred_hostname := "https://example.org";
     cred_login := "alice"; cred_password := "wonderland" |}.

Definition bob : credential :=
  {| cred_hostname := "https://example.net";
     cred_login := "bob"; cred_password := "builder" |}.

Definition env1 : add_env :=
  {| env_timestamp := 1700000000000; env_iv_username := iv1;
     env_iv_password := iv2; env_uuid := "0a0a0a0a-0000-4000-8000-000000000001" |}.

Definition env2 : add_env :=
  {| env_timestamp := 1700000000500; env_iv_username := iv2;
     env_iv_password := iv1; env_uuid := "0a0a0a0a-0000-4000-8000-000000000002" |}.

Definition env3 : add_env :=
  {| env_timestamp := 1700000000900; env_iv_username := iv1;
     env_iv_password := iv1; env_uuid := "0a0a0a0a-0000-4000-8000-000000000003" |}.

Definition empty_doc : document := mk_document [] 0.

(** The document that holds one record, for alice. *)
Definition doc_alice : document :=
  (addNewLogin (L := libs) env1 key empty_doc alice).2.

(** A document whose only record has no encrypted fields. *)
Definition doc_undecryptable : document :=
  mk_document [{["id" := VInt 0; "hostname" := VStr "https://example.com"]}] 1.

(** Alice added a second time; the two records for her, in store order. *)
Definition doc_alice_twice : document :=
  (addNewLogin (L := libs) env2 key doc_alice alice).2.

Definition alice_first : gmap string value :=
  default ∅ (default [] (logins doc_alice_twice) !! 0%nat).

Definition alice_second : gmap string value :=
  default ∅ (default [] (logins doc_alice_twice) !! 1%nat).

(** [doc_undecryptable] after alice is added to it. *)
Definition doc_undecryptable_added : document :=
  (addNewLogin (L := libs) env1 key doc_undecryptable alice).2.

(** Two additions, then the removal of the first. *)
Definition ops : list op := [OpAdd env1 alice; OpAdd env2 bob; OpDel alice].

(** The record for bob that [ops] leaves. *)
Definition bob_entry : gmap string value :=
  default ∅ (default [] (logins (apply_ops (L := libs) key empty_doc ops)) !! 0%nat).

End Fixture.

(** ** The password prompt (lines 245-254) *)

Section AskPass.
Context {L : Libs}.

(** The loop of [askpass].  [answers] holds what the successive calls of
    [getpass] return; the result comes with the answers not asked for.
    [None]: every answer was used up and the loop is at the prompt again. *)
Fixpoint askpass_loop (directory : option keydb) (password : string)
    (answers : list string) : option (result bytes * list string) :=
  match getKey directory password with
  | Err WrongPassword =>
    match answers with
    | [] => None
    | password' :: answers' => askpass_loop directory password' answers'
    end
  | outcome => Some (outcome, answers)
  end.

Definition askpass (directory : option keydb) (answers : list string)
    : option (result bytes * list string) :=
  askpass_loop directory EmptyString answers.

End AskPass.

(** ** A second sample decoder

    [Sample.tag_decode] yields the two well-formed shapes only.  This one
    also reads, after a tag byte 2, an envelope whose marker is taken from
    the input. *)

Module SampleMarker.

Definition marker_decode (b : bytes) : option (asn1 * bytes) :=
  match b with
  | x02%byte :: rest =>
    Some (Sequence [OctetString (take 16 rest);
                    Sequence [ObjectIdentifier MAGIC2;
                              OctetString (take 8 (drop 16 rest))];
                    OctetString (drop 24 rest)], [])
  | _ => Sample.tag_decode b
  end.

Definition libs : Libs := {|
  sha1 := Sample.checksum;
  hmac_sha1 := Sample.keyed_checksum;
  des3 := bytes * bytes;
  DES3_new := Sample.shift_new;
  des3_encrypt := Sample.shift_encrypt;
  des3_decrypt := Sample.shift_decrypt;
  des3_key_ok := Sample.shift_key_ok;
  der_encode := Sample.tag_encode;
  der_decode := marker_decode;
  b64encode := Sample.hex_encode;
  b64decode := Sample.hex_decode;
|}.

(** A credential field whose envelope starts with sixteen zero bytes. *)
Definition field_wrong_marker : string :=
  String.string_of_list_byte
    (Sample.hex_encode (x02%byte :: replicate 16 x00%byte ++ Fixture.iv1
                        ++ replicate 8 x41%byte)).

End SampleMarker.

(** ** Documents that lack a key *)

Module Incomplete.

(** [Fixture.doc_alice] without its counter. *)
Definition doc_no_counter : document :=
  {| logins := logins Fixture.doc_alice; nextId := None |}.

(** A document with a counter and no record list. *)
Definition doc_no_logins : document := {| logins := None; nextId := Some 3 |}.

End Incomplete.

(** ** Records that do not export *)

Module Unreadable.

(** A document whose only record has encrypted fields that are not
    base 64. *)
Definition doc_garbled : document :=
  mk_document
    [{["id" := VInt 0; "hostname" := VStr "https://example.com";
       "encryptedUsername" := VStr "zz"; "encryptedPassword" := VStr "zz"]}] 1.

(** The two encrypted fields of [Fixture.alice_first]. *)
Definition alice_encryptedUsername : string :=
  match Fixture.alice_first !! "encryptedUsername" with
  | Some (VStr data) => data
  | _ => EmptyString
  end.

Definition alice_encryptedPassword : string :=
  match Fixture.alice_first !! "encryptedPassword" with
  | Some (VStr data) => data
  | _ => EmptyString
  end.

End Unreadable.

(** * Proofs *)

(** ** Python sequences *)

Lemma py_len_app {A} (xs ys : list A) : py_len (xs ++ ys) = py_len xs + py_len ys.
Proof. unfold py_len. rewrite length_app. lia. Qed.

Lemma py_len_nonneg {A} (xs : list A) : 0 <= py_len xs.
Proof. unfold py_len. lia. Qed.

Lemma py_mul_singleton {A} (x : A) (n : Z) : py_mul [x] n = replicate (Z.to_nat n) x.
Proof.
  unfold py_mul. induction (Z.to_nat n) as [|k IH]; simpl; [done|].
  by rewrite IH.
Qed.

Lemma py_byte_in_range (z : Z) :
  0 <= z < 256 -> exists c, py_byte z = Ok c /\ int_of_byte c = z.
Proof.
  intros Hz. unfold py_byte.
  replace ((z <? 0) || (256 <=? z)) with false by lia.
  destruct (Byte.of_N (Z.to_N z)) as [c|] eqn:Hc.
  - exists c. split; [done|]. unfold int_of_byte.
    apply Byte.to_of_N in Hc. rewrite Hc. lia.
  - apply Byte.of_N_None_iff in Hc. lia.
Qed.

Lemma py_bytes_replicate (z : Z) (c : byte) (n : nat) :
  py_byte z = Ok c -> py_bytes (replicate n z) = Ok (replicate n c).
Proof.
  intros Hc. induction n as [|n IH]; simpl; [done|].
  rewrite Hc. simpl. rewrite IH. done.
Qed.

Lemma py_getitem_last {A} (xs : list A) (x : A) : py_getitem (xs ++ [x]) (-1) = Ok x.
Proof.
  unfold py_getitem. simpl. rewrite py_len_app.
  assert (Hlen : py_len [x] = 1) by done. rewrite Hlen.
  pose proof (py_len_nonneg xs) as Hxs.
  replace ((-1 + (py_len xs + 1) <? 0) || _) with false by lia.
  replace (Z.to_nat (-1 + (py_len xs + 1))) with (length xs + 0)%nat
    by (unfold py_len; lia).
  by rewrite lookup_app_r, Nat.add_comm, Nat.add_sub by lia.
Qed.

Lemma py_getitem_last_nil {A} : py_getitem (@nil A) (-1) = Err IndexError.
Proof. done. Qed.

Lemma py_slice_to_app {A} (xs ys : list A) :
  ys ≠ [] -> py_slice_to (xs ++ ys) (- py_len ys) = xs.
Proof.
  intros Hys. unfold py_slice_to, py_bound.
  assert (0 < py_len ys) by (destruct ys; [done|unfold py_len; simpl; lia]).
  replace (- py_len ys <? 0) with true by lia.
  rewrite py_len_app.
  replace (Z.to_nat _) with (length xs) by (unfold py_len in *; lia).
  by rewrite take_app_length.
Qed.

(** ** Padding *)

Lemma pad_length_range (n : Z) : 1 <= (- n - 1) mod 8 + 1 <= 8.
Proof. pose proof (Z.mod_pos_bound (- n - 1) 8). lia. Qed.

Lemma PKCS7pad_eq (b : bytes) :
  exists c, int_of_byte c = (- py_len b - 1) mod 8 + 1
    /\ PKCS7pad b = Ok (b ++ replicate (Z.to_nat ((- py_len b - 1) mod 8 + 1)) c).
Proof.
  pose proof (pad_length_range (py_len b)) as Hl.
  destruct (py_byte_in_range ((- py_len b - 1) mod 8 + 1)) as (c & Hc & Hv); [lia|].
  exists c. split; [done|]. unfold PKCS7pad.
  rewrite py_mul_singleton, (py_bytes_replicate _ c) by done. done.
Qed.

(** C4.  [PKCS7pad] never raises; it appends between 1 and 8 bytes, each
    equal to the number of bytes appended, and the result is the next
    multiple of 8 in length: the least multiple of 8 strictly above the
    input length, so a full block of 8 when the input length is already a
    multiple of 8. *)
Theorem PKCS7pad_correct (b : bytes) :
  exists pad,
    PKCS7pad b = Ok (b ++ pad)
    /\ 1 <= py_len pad <= 8
    /\ Forall (fun c => int_of_byte c = py_len pad) pad
    /\ (8 | py_len (b ++ pad))
    /\ (forall n, py_len b < n -> (8 | n) -> py_len (b ++ pad) <= n)
    /\ ((8 | py_len b) -> py_len (b ++ pad) = py_len b + 8).
Proof.
  destruct (PKCS7pad_eq b) as (c & Hc & Hpad).
  pose proof (pad_length_range (py_len b)) as Hl.
  set (l := (- py_len b - 1) mod 8 + 1) in *.
  exists (replicate (Z.to_nat l) c).
  assert (Hlen : py_len (replicate (Z.to_nat l) c) = l).
  { unfold py_len. rewrite length_replicate. lia. }
  rewrite py_len_app, Hlen.
  assert (Hdiv : (8 | py_len b + l)).
  { exists (- ((- py_len b - 1) / 8)). unfold l.
    pose proof (Z.div_mod (- py_len b - 1) 8). lia. }
  repeat split; try lia; try done.
  - apply Forall_forall. intros x Hx. apply elem_of_replicate in Hx as [-> _].
    done.
  - intros n Hn [k ->]. destruct Hdiv as [j Hj]. nia.
  - intros [k Hk]. destruct Hdiv as [j Hj]. nia.
Qed.

Lemma PKCS7pad_correct_witness :
  exists pad,
    PKCS7pad [x61; x62; x63; x64; x65; x66; x67; x68]%byte
      = Ok ([x61; x62; x63; x64; x65; x66; x67; x68]%byte ++ pad)
    /\ py_len ([x61; x62; x63; x64; x65; x66; x67; x68]%byte ++ pad) = 16.
Proof.
  destruct (PKCS7pad_correct [x61; x62; x63; x64; x65; x66; x67; x68]%byte)
    as (pad & Hpad & _ & _ & _ & _ & Hfull).
  exists pad. split; [exact Hpad|]. apply Hfull. exists 1. reflexivity.
Defined.

Lemma PKCS7unpad_nil : PKCS7unpad [] = Err IndexError.
Proof. done. Qed.

(** On a non-empty input, [PKCS7unpad] returns the slice and never raises. *)
Lemma PKCS7unpad_snoc (b : bytes) (c : byte) :
  PKCS7unpad (b ++ [c]) = Ok (py_slice_to (b ++ [c]) (- int_of_byte c)).
Proof. unfold PKCS7unpad. by rewrite py_getitem_last. Qed.

(** What the slice [b[:-n]] is for each value of the last byte [n]. *)
Lemma PKCS7unpad_cases (b : bytes) (c : byte) :
  PKCS7unpad (b ++ [c])
  = Ok (if bool_decide (1 <= int_of_byte c <= py_len (b ++ [c]))
        then take (length (b ++ [c]) - Z.to_nat (int_of_byte c)) (b ++ [c])
        else []).
Proof.
  rewrite PKCS7unpad_snoc. f_equal. unfold py_slice_to, py_bound.
  assert (0 <= int_of_byte c) by (unfold int_of_byte; lia).
  pose proof (py_len_nonneg (b ++ [c])).
  case_bool_decide as Hn.
  - replace (- int_of_byte c <? 0) with true by lia. f_equal.
    unfold py_len in *. lia.
  - destruct (decide (int_of_byte c = 0)) as [->|].
    + simpl. replace (Z.to_nat _) with 0%nat by lia. done.
    + replace (- int_of_byte c <? 0) with true by lia.
      replace (Z.to_nat _) with 0%nat by lia. done.
Qed.

Lemma PKCS7unpad_strip (front tail : bytes) (c : byte) :
  last tail = Some c -> int_of_byte c = py_len tail ->
  PKCS7unpad (front ++ tail) = Ok front.
Proof.
  intros Hlast Hc. apply last_Some in Hlast as [tail' ->].
  rewrite app_assoc, PKCS7unpad_snoc, <- app_assoc, Hc.
  by rewrite py_slice_to_app by (by destruct tail').
Qed.

Lemma PKCS7unpad_PKCS7pad (b padded : bytes) :
  PKCS7pad b = Ok padded -> PKCS7unpad padded = Ok b.
Proof.
  destruct (PKCS7pad_eq b) as (c & Hc & ->). intros [= <-].
  pose proof (pad_length_range (py_len b)) as Hl.
  set (l := (- py_len b - 1) mod 8 + 1) in *.
  apply (PKCS7unpad_strip _ _ c).
  - destruct (Z.to_nat l) as [|k] eqn:Hk; [lia|].
    by rewrite replicate_S_end, last_snoc.
  - unfold py_len. rewrite length_replicate. lia.
Qed.

Lemma PKCS7pad_length (b padded : bytes) :
  PKCS7pad b = Ok padded -> (8 | py_len padded).
Proof.
  destruct (PKCS7pad_eq b) as (c & Hc & ->). intros [= <-].
  pose proof (pad_length_range (py_len b)).
  rewrite py_len_app. unfold py_len at 2. rewrite length_replicate.
  exists (- ((- py_len b - 1) / 8)).
  pose proof (Z.div_mod (- py_len b - 1) 8). lia.
Qed.

Lemma PKCS7pad_total (b : bytes) : exists padded, PKCS7pad b = Ok padded.
Proof. destruct (PKCS7pad_eq b) as (c & _ & ->). eauto. Qed.

(** ** Text *)

Lemma bytes_decode_str_encode (s : string) :
  utf8_valid (str_encode s) = true -> bytes_decode (str_encode s) = Ok s.
Proof.
  intros Hs. unfold bytes_decode, str_encode in *. rewrite Hs.
  by rewrite String.string_of_list_byte_of_string.
Qed.

Lemma bytes_decode_Ok (b : bytes) (s : string) :
  bytes_decode b = Ok s -> utf8_valid b = true /\ str_encode s = b.
Proof.
  unfold bytes_decode, str_encode. destruct (utf8_valid b); [|done].
  intros [= <-]. by rewrite String.list_byte_of_string_of_list_byte.
Qed.

(** ** Credential codec *)

Section Codec.
Context {L : Libs}.

(** Decoding a well-shaped envelope comes down to decrypting, unpadding and
    reading the text; nothing is checked about the padding bytes. *)
Lemma decodeLoginData_envelope (key : bytes) (data : string)
    (raw iv ciphertext rest : bytes) :
  b64decode data = Some raw ->
  der_decode raw = Some (login_envelope iv ciphertext, rest) ->
  decodeLoginData key data
  = (des ← raising ValueError (DES3_new key iv);
     plain ← raising ValueError (des3_decrypt des ciphertext);
     unpadded ← PKCS7unpad plain;
     bytes_decode unpadded).
Proof.
  intros Hraw Hder. unfold decodeLoginData. rewrite Hraw. simpl.
  rewrite Hder. simpl. done.
Qed.

Context {laws : LibsLaws L}.

Lemma encodeLoginData_Ok (key iv : bytes) (s : string) :
  des3_key_ok key = true -> length iv = 8%nat ->
  exists des padded ciphertext,
    DES3_new key iv = Some des
    /\ PKCS7pad (str_encode s) = Ok padded
    /\ des3_encrypt des padded = Some ciphertext
    /\ des3_decrypt des ciphertext = Some padded
    /\ encodeLoginData key iv s
       = Ok (String.string_of_list_byte
               (b64encode (der_encode (login_envelope iv ciphertext)))).
Proof.
  intros Hkey Hiv.
  destruct (DES3_new_ok key iv Hkey Hiv) as [des Hdes].
  destruct (PKCS7pad_total (str_encode s)) as [padded Hpad].
  destruct (des3_round_trip key iv des des padded Hdes Hdes
              (PKCS7pad_length _ _ Hpad)) as (c & Henc & Hdec).
  exists des, padded, c. repeat split; try done.
  unfold encodeLoginData. rewrite Hdes. simpl. rewrite Hpad. simpl.
  rewrite Henc. simpl. unfold bytes_decode.
  by rewrite b64encode_ascii.
Qed.

(** C1.  For every valid 24-byte key, every initialisation vector of 8
    bytes that [secrets.token_bytes(8)] may draw and every string of valid
    UTF-8 text, [encodeLoginData] returns an envelope and [decodeLoginData]
    applied to it returns the string. *)
Theorem decodeLoginData_encodeLoginData (key iv : bytes) (s : string) :
  length key = 24%nat -> des3_key_ok key = true ->
  length iv = 8%nat ->
  utf8_valid (str_encode s) = true ->
  exists data,
    encodeLoginData key iv s = Ok data /\ decodeLoginData key data = Ok s.
Proof.
  intros _ Hkey Hiv Hs.
  destruct (encodeLoginData_Ok key iv s Hkey Hiv)
    as (des & padded & c & Hdes & Hpad & Henc & Hdec & Hdata).
  eexists. split; [exact Hdata|].
  rewrite (decodeLoginData_envelope key _ _ iv c [] (b64_round_trip _)
             (der_round_trip iv c Hiv)).
  rewrite Hdes. simpl. rewrite Hdec. simpl.
  rewrite (PKCS7unpad_PKCS7pad _ _ Hpad). simpl.
  by apply bytes_decode_str_encode.
Qed.

End Codec.

(** ** The sample implementation meets the contract *)

Module SampleFacts.
Import Sample.

Lemma to_N_byte_of_N (n : N) : (n < 256)%N -> Byte.to_N (byte_of_N n) = n.
Proof.
  intros Hn. unfold byte_of_N. destruct (Byte.of_N n) as [c|] eqn:Hc.
  - by apply Byte.to_of_N in Hc.
  - apply Byte.of_N_None_iff in Hc. lia.
Qed.

Lemma byte_of_N_to_N (c : byte) : byte_of_N (Byte.to_N c) = c.
Proof. unfold byte_of_N. by rewrite Byte.of_to_N. Qed.

Lemma byte_sub_add (k c : byte) : byte_sub k (byte_add k c) = c.
Proof.
  unfold byte_sub, byte_add.
  pose proof (Byte.to_N_bounded c). pose proof (Byte.to_N_bounded k).
  rewrite to_N_byte_of_N by (apply N.mod_upper_bound; lia).
  rewrite <- (byte_of_N_to_N c) at 2. f_equal.
  destruct (decide (Byte.to_N c + Byte.to_N k < 256)%N).
  - rewrite (N.mod_small (_ + _)) by lia.
    replace (Byte.to_N c + Byte.to_N k + 256 - Byte.to_N k)%N
      with (Byte.to_N c + 1 * 256)%N by lia.
    rewrite N.Div0.mod_add. apply N.mod_small. lia.
  - replace ((Byte.to_N c + Byte.to_N k) mod 256)%N
      with (Byte.to_N c + Byte.to_N k - 256)%N.
    + replace (Byte.to_N c + Byte.to_N k - 256 + 256 - Byte.to_N k)%N
        with (Byte.to_N c) by lia.
      apply N.mod_small. lia.
    + apply (N.mod_unique _ _ 1); lia.
Qed.

Lemma checksum_length (m : bytes) : length (checksum m) = 20%nat.
Proof.
  unfold checksum. by rewrite length_replicate.
Qed.

Lemma hex_encode_cons (c : byte) (b : bytes) :
  hex_encode (c :: b)
  = hex_digit (Byte.to_N c / 16) :: hex_digit (Byte.to_N c mod 16) :: hex_encode b.
Proof. done. Qed.

Lemma hex_pair_ascii (c : byte) (rest : bytes) :
  utf8_valid (hex_digit (Byte.to_N c / 16) :: hex_digit (Byte.to_N c mod 16) :: rest)
  = utf8_valid rest.
Proof. destruct c; reflexivity. Qed.

Lemma hex_pair_value (c : byte) (rest : bytes) :
  unhex (hex_digit (Byte.to_N c / 16) :: hex_digit (Byte.to_N c mod 16) :: rest)
  = (cs ← unhex rest; Some (c :: cs)).
Proof. destruct c; reflexivity. Qed.

Lemma hex_encode_ascii (b : bytes) : utf8_valid (hex_encode b) = true.
Proof.
  induction b as [|c b IH]; [done|].
  by rewrite hex_encode_cons, hex_pair_ascii.
Qed.

Lemma unhex_hex_encode (b : bytes) : unhex (hex_encode b) = Some b.
Proof.
  induction b as [|c b IH]; [done|].
  by rewrite hex_encode_cons, hex_pair_value, IH.
Qed.

Lemma tag_round_trip (iv ciphertext : bytes) :
  length iv = 8%nat ->
  tag_decode (tag_encode (login_envelope iv ciphertext))
  = Some (login_envelope iv ciphertext, []).
Proof.
  intros Hiv. unfold login_envelope, tag_encode, tag_decode. rewrite Hiv.
  change (N.to_nat (Byte.to_N (byte_of_N (N.of_nat 8)))) with 8%nat.
  rewrite bool_decide_true by (rewrite length_app; lia).
  rewrite bool_decide_true by done.
  by rewrite <- Hiv, take_app_length, drop_app_length.
Qed.

Lemma pbe_round_trip (entrySalt cipherT : bytes) :
  (length entrySalt < 256)%nat ->
  tag_decode (tag_encode (pbe_envelope entrySalt cipherT))
  = Some (pbe_envelope entrySalt cipherT, []).
Proof.
  intros Hes. unfold pbe_envelope, tag_encode, tag_decode.
  rewrite to_N_byte_of_N, Nat2N.id by lia.
  rewrite bool_decide_true by (rewrite length_app; lia).
  rewrite bool_decide_false by done. rewrite bool_decide_true by done.
  by rewrite take_app_length, drop_app_length.
Qed.

Lemma laws : LibsLaws libs.
Proof.
  split; simpl.
  - exact checksum_length.
  - intros k m. exact (checksum_length (k ++ m)).
  - intros key iv Hkey Hiv. unfold shift_new. rewrite Hkey.
    rewrite bool_decide_true by done. by eexists.
  - intros key iv des des' m Hdes Hdes' [q Hq].
    rewrite Hdes in Hdes'. injection Hdes' as <-.
    unfold shift_encrypt, shift_decrypt. eexists.
    rewrite bool_decide_true by (rewrite Hq; apply Z.mod_mul; lia).
    split; [done|]. unfold py_len in *. rewrite length_fmap.
    rewrite bool_decide_true by (rewrite Hq; apply Z.mod_mul; lia).
    f_equal. rewrite <- list_fmap_compose.
    rewrite <- (list_fmap_id m) at 2. apply list_fmap_ext.
    intros _ c _. apply byte_sub_add.
  - apply tag_round_trip.
  - apply hex_encode_ascii.
  - intros b. unfold hex_decode.
    rewrite String.list_byte_of_string_of_list_byte. apply unhex_hex_encode.
Qed.

End SampleFacts.

(** ** Unpadding *)

Section Unpadding.
Context {L : Libs}.

(** C5, as the code has it.  [PKCS7unpad] raises on the empty byte string
    only (IndexError); on an input that ends in a tail of [n] bytes whose
    last byte is [n], for any [n] and not only up to 8, it removes exactly
    that tail; and [decodeLoginData] applies it to the decrypted data as it
    is, with no check of the padding in between. *)
Theorem PKCS7unpad_no_validation :
  (forall b e, PKCS7unpad b = Err e <-> b = [] /\ e = IndexError)
  /\ (forall front tail c,
        last tail = Some c -> int_of_byte c = py_len tail ->
        PKCS7unpad (front ++ tail) = Ok front)
  /\ (forall key data raw iv ciphertext rest des plain,
        b64decode data = Some raw ->
        der_decode raw = Some (login_envelope iv ciphertext, rest) ->
        DES3_new key iv = Some des ->
        des3_decrypt des ciphertext = Some plain ->
        decodeLoginData key data
        = (unpadded ← PKCS7unpad plain; bytes_decode unpadded)).
Proof.
  split; [|split].
  - intros b e. split.
    + destruct (last b) as [c|] eqn:Hlast.
      * apply last_Some in Hlast as [b' ->]. by rewrite PKCS7unpad_snoc.
      * apply last_None in Hlast as ->. by intros [= <-].
    + by intros [-> ->].
  - apply PKCS7unpad_strip.
  - intros key data raw iv ciphertext rest des plain Hraw Hder Hdes Hplain.
    rewrite (decodeLoginData_envelope _ _ _ _ _ _ Hraw Hder), Hdes. simpl.
    by rewrite Hplain.
Qed.

End Unpadding.

Lemma PKCS7unpad_no_validation_witness :
  PKCS7unpad ([x61; x62; x63]%byte ++ replicate 9 x09%byte)
  = Ok [x61; x62; x63]%byte.
Proof.
  apply (proj1 (proj2 (@PKCS7unpad_no_validation Sample.libs))
           [x61; x62; x63]%byte (replicate 9 x09%byte) x09%byte);
    reflexivity.
Defined.

(** C5, the claim as stated fails: a last byte of 9 or of 0 raises nothing.
    With 9 the first seven bytes come back as the plaintext; with 0 the
    slice [b[:-0]] is empty, so all bytes are removed and not none. *)
Lemma PKCS7unpad_accepts_bad_padding :
  PKCS7unpad (replicate 7 x41%byte ++ replicate 9 x09%byte)
  = Ok (replicate 7 x41%byte)
  /\ PKCS7unpad (replicate 7 x41%byte ++ [x00%byte]) = Ok []
  /\ decodeLoginData (L := Sample.libs) Fixture.key Fixture.field_pad9
     = Ok "AAAAAAA"
  /\ decodeLoginData (L := Sample.libs) Fixture.key Fixture.field_pad0
     = Ok EmptyString.
Proof. repeat split; vm_compute; reflexivity. Qed.

(** ** Key derivation *)

Lemma py_slice_to_take {A} (xs : list A) (n : nat) :
  py_slice_to xs (Z.of_nat n) = take n xs.
Proof.
  unfold py_slice_to, py_bound, py_len.
  rewrite (proj2 (Z.ltb_ge _ _)) by lia.
  destruct (decide (n ≤ length xs)%nat).
  - f_equal. lia.
  - rewrite !take_ge; [done|lia..].
Qed.

Lemma py_slice_from_last {A} (xs : list A) (n : nat) :
  (0 < n)%nat ->
  py_slice_from xs (- Z.of_nat n) = reverse (take n (reverse xs)).
Proof.
  intros Hn. unfold py_slice_from, py_bound, py_len.
  rewrite (proj2 (Z.ltb_lt _ _)) by lia.
  rewrite reverse_take, reverse_involutive, length_reverse. f_equal. lia.
Qed.

Lemma py_mul_zero_pad (entrySalt : bytes) :
  entrySalt ++ py_mul [x00%byte] (20 - py_len entrySalt)
  = paddedEntrySalt_spec entrySalt.
Proof.
  rewrite py_mul_singleton. unfold paddedEntrySalt_spec, py_len.
  case_bool_decide.
  - do 2 f_equal. lia.
  - replace (Z.to_nat _) with 0%nat by lia. apply app_nil_r.
Qed.

Section KeyDerivation.
Context {L : Libs} {laws : LibsLaws L}.

(** C2.  [decrypt3DES] is a function of its four arguments that decrypts
    with the key and the initialisation vector of the derivation the
    specification describes: 24 and 8 bytes taken from the front and the end
    of [k1 || k2]. *)
Theorem decrypt3DES_derivation (globalSalt : bytes) (password : string)
    (entrySalt encryptedData : bytes) :
  let (key, iv) := derive_spec globalSalt password entrySalt in
  length key = 24%nat /\ length iv = 8%nat
  /\ decrypt3DES globalSalt password entrySalt encryptedData
     = (des ← raising ValueError (DES3_new key iv);
        raising ValueError (des3_decrypt des encryptedData)).
Proof.
  unfold derive_spec, first_bytes, last_bytes.
  split; [|split].
  - rewrite length_take, length_app, !hmac_sha1_length. lia.
  - rewrite length_reverse, length_take, length_reverse, length_app,
      !hmac_sha1_length. lia.
  - unfold decrypt3DES. rewrite py_mul_zero_pad.
    change 24 with (Z.of_nat 24). change (-8) with (- Z.of_nat 8).
    by rewrite py_slice_to_take, py_slice_from_last by lia.
Qed.

End KeyDerivation.

Lemma decrypt3DES_derivation_witness :
  let (key, iv) :=
    @derive_spec Sample.libs [x73; x61; x6c; x74]%byte "secret"
      [x01; x02; x03]%byte in
  length key = 24%nat /\ length iv = 8%nat
  /\ @decrypt3DES Sample.libs [x73; x61; x6c; x74]%byte "secret"
       [x01; x02; x03]%byte (replicate 16 x00%byte)
     = (des ← raising ValueError (@DES3_new Sample.libs key iv);
        raising ValueError (@des3_decrypt Sample.libs des (replicate 16 x00%byte))).
Proof.
  exact (@decrypt3DES_derivation Sample.libs SampleFacts.laws
           [x73; x61; x6c; x74]%byte "secret"
           [x01; x02; x03]%byte (replicate 16 x00%byte)).
Defined.

Lemma decodeLoginData_encodeLoginData_witness :
  exists data,
    encodeLoginData (L := Sample.libs) Fixture.key Fixture.iv1 "hunter2" = Ok data
    /\ decodeLoginData (L := Sample.libs) Fixture.key data = Ok "hunter2".
Proof.
  apply (@decodeLoginData_encodeLoginData Sample.libs SampleFacts.laws
           Fixture.key Fixture.iv1 "hunter2"); reflexivity.
Defined.

(** ** Master key *)

Lemma raising_Err {A} (e0 e : exn) (o : option A) : raising e0 o = Err e -> e = e0.
Proof. destruct o; [done|]. by intros [= <-]. Qed.

Lemma raising_Ok {A} (e0 : exn) (o : option A) (a : A) :
  raising e0 o = Ok a -> o = Some a.
Proof. destruct o; [|done]. by intros [= <-]. Qed.

Lemma py_getitem_Err {A} (xs : list A) (i : Z) (e : exn) :
  py_getitem xs i = Err e -> e = IndexError.
Proof.
  unfold py_getitem. destruct (_ || _); [by intros [= <-]|].
  apply raising_Err.
Qed.

Lemma asn1_getitem_Err (v : asn1) (i : Z) (e : exn) :
  asn1_getitem v i = Err e -> foreign e.
Proof.
  destruct v; simpl; try by intros [= <-].
  by intros ->%py_getitem_Err.
Qed.

Lemma asOctets_Err (v : asn1) (e : exn) : asOctets v = Err e -> foreign e.
Proof. destruct v; simpl; by intros [= <-]. Qed.

Lemma pbe_entrySalt_Err (decoded : asn1) (e : exn) :
  pbe_entrySalt decoded = Err e -> foreign e.
Proof.
  unfold pbe_entrySalt.
  destruct (asn1_getitem decoded 0) as [a|e1] eqn:Ha; simpl;
    [|intros [= <-]; by eapply asn1_getitem_Err].
  destruct (asn1_getitem a 1) as [b|e1] eqn:Hb; simpl;
    [|intros [= <-]; by eapply asn1_getitem_Err].
  destruct (asn1_getitem b 0) as [c|e1] eqn:Hc; simpl;
    [|intros [= <-]; by eapply asn1_getitem_Err].
  apply asOctets_Err.
Qed.

Lemma pbe_cipherT_Err (decoded : asn1) (e : exn) :
  pbe_cipherT decoded = Err e -> foreign e.
Proof.
  unfold pbe_cipherT.
  destruct (asn1_getitem decoded 1) as [a|e1] eqn:Ha; simpl;
    [|intros [= <-]; by eapply asn1_getitem_Err].
  apply asOctets_Err.
Qed.

Section MasterKey.
Context {L : Libs}.

Lemma decrypt3DES_Err (globalSalt : bytes) (masterPassword : string)
    (entrySalt encryptedData : bytes) (e : exn) :
  decrypt3DES globalSalt masterPassword entrySalt encryptedData = Err e ->
  foreign e.
Proof.
  unfold decrypt3DES.
  destruct (DES3_new _ _) as [des|]; simpl; [|by intros [= <-]].
  by intros ->%raising_Err.
Qed.

Lemma getKey_master_Err (c : list (bytes * bytes)) (row : bytes * bytes)
    (globalSalt : bytes) (masterPassword : string) (e : exn) :
  getKey_master c row globalSalt masterPassword = Err e -> foreign e.
Proof.
  unfold getKey_master. destruct (negb _); [by intros [= <-]|].
  destruct (der_decode _) as [[decoded rest]|]; simpl; [|by intros [= <-]].
  destruct (pbe_entrySalt decoded) as [es|e1] eqn:Hes; simpl;
    [|intros [= <-]; by eapply pbe_entrySalt_Err].
  destruct (pbe_cipherT decoded) as [ct|e1] eqn:Hct; simpl;
    [|intros [= <-]; by eapply pbe_cipherT_Err].
  destruct (decrypt3DES _ _ _ _) as [m|e1] eqn:Hm; simpl;
    [done|intros [= <-]; by eapply decrypt3DES_Err].
Qed.

(** The check of lines 54-65 on a store whose password row decodes and
    decrypts to [clearText]. *)
Lemma getKey_check (conn : keydb) (masterPassword : string)
    (globalSalt item2 : bytes) (rows : list (bytes * bytes))
    (decoded : asn1) (rest entrySalt cipherT clearText : bytes) :
  metadata_password conn = (globalSalt, item2) :: rows ->
  der_decode item2 = Some (decoded, rest) ->
  pbe_entrySalt decoded = Ok entrySalt ->
  pbe_cipherT decoded = Ok cipherT ->
  decrypt3DES globalSalt masterPassword entrySalt cipherT = Ok clearText ->
  getKey (Some conn) masterPassword
  = if bool_decide (clearText = PASSWORD_CHECK)
    then getKey_master (nssPrivate conn) (globalSalt, item2) globalSalt
           masterPassword
    else Err WrongPassword.
Proof.
  intros Hrow Hder Hes Hct Hclear. unfold getKey. rewrite Hrow. simpl.
  rewrite Hder. simpl. rewrite Hes. simpl. rewrite Hct. simpl.
  rewrite Hclear. simpl. by case_bool_decide.
Qed.

(** C3.  [getKey] raises [NoDatabase] exactly when the store file is
    absent.  On a store whose check envelope decodes and decrypts, under
    the key derived from the stored global salt, the candidate password and
    the envelope's entry salt, to [clearText], it raises [WrongPassword]
    exactly when [clearText] differs from the 16-byte constant, and goes on
    to the master key otherwise; and [WrongPassword] has no other cause. *)
Theorem getKey_password_check :
  (forall directory masterPassword,
     getKey directory masterPassword = Err NoDatabase <-> directory = None)
  /\ (forall conn masterPassword globalSalt item2 rows decoded rest
             entrySalt cipherT clearText,
        metadata_password conn = (globalSalt, item2) :: rows ->
        der_decode item2 = Some (decoded, rest) ->
        pbe_entrySalt decoded = Ok entrySalt ->
        pbe_cipherT decoded = Ok cipherT ->
        decrypt3DES globalSalt masterPassword entrySalt cipherT = Ok clearText ->
        (getKey (Some conn) masterPassword = Err WrongPassword
         <-> clearText ≠ PASSWORD_CHECK)
        /\ (clearText = PASSWORD_CHECK ->
            getKey (Some conn) masterPassword
            = getKey_master (nssPrivate conn) (globalSalt, item2) globalSalt
                masterPassword))
  /\ (forall directory masterPassword,
        getKey directory masterPassword = Err WrongPassword ->
        exists conn globalSalt item2 rows decoded rest entrySalt cipherT clearText,
          directory = Some conn
          /\ metadata_password conn = (globalSalt, item2) :: rows
          /\ der_decode item2 = Some (decoded, rest)
          /\ pbe_entrySalt decoded = Ok entrySalt
          /\ pbe_cipherT decoded = Ok cipherT
          /\ decrypt3DES globalSalt masterPassword entrySalt cipherT = Ok clearText
          /\ clearText ≠ PASSWORD_CHECK).
Proof.
  assert (Hwrong : forall directory masterPassword,
    getKey directory masterPassword = Err WrongPassword ->
    exists conn globalSalt item2 rows decoded rest entrySalt cipherT clearText,
      directory = Some conn
      /\ metadata_password conn = (globalSalt, item2) :: rows
      /\ der_decode item2 = Some (decoded, rest)
      /\ pbe_entrySalt decoded = Ok entrySalt
      /\ pbe_cipherT decoded = Ok cipherT
      /\ decrypt3DES globalSalt masterPassword entrySalt cipherT = Ok clearText
      /\ clearText ≠ PASSWORD_CHECK).
  { intros [conn|] pw; [|done]. unfold getKey.
    destruct (metadata_password conn) as [|[gs item2] rows] eqn:Hrow; [done|].
    simpl. destruct (der_decode item2) as [[decoded rest]|] eqn:Hder; [|done].
    simpl. destruct (pbe_entrySalt decoded) as [es|e1] eqn:Hes; simpl;
      [|intros [= ->]; by destruct (pbe_entrySalt_Err _ _ Hes)].
    destruct (pbe_cipherT decoded) as [ct|e1] eqn:Hct; simpl;
      [|intros [= ->]; by destruct (pbe_cipherT_Err _ _ Hct)].
    destruct (decrypt3DES gs pw es ct) as [clear|e1] eqn:Hclear; simpl;
      [|intros [= ->]; by destruct (decrypt3DES_Err _ _ _ _ _ Hclear)].
    case_bool_decide as Hcheck; simpl.
    - intros Hm. by destruct (getKey_master_Err _ _ _ _ _ Hm).
    - intros _. by exists conn, gs, item2, rows, decoded, rest, es, ct, clear. }
  split; [|split; [|exact Hwrong]].
  - intros [conn|] pw; [|done]. split; [|done]. unfold getKey.
    destruct (metadata_password conn) as [|[gs item2] rows]; [done|].
    simpl. destruct (der_decode item2) as [[decoded rest]|]; [|done].
    simpl. destruct (pbe_entrySalt decoded) as [es|e1] eqn:Hes; simpl;
      [|intros [= ->]; by destruct (pbe_entrySalt_Err _ _ Hes)].
    destruct (pbe_cipherT decoded) as [ct|e1] eqn:Hct; simpl;
      [|intros [= ->]; by destruct (pbe_cipherT_Err _ _ Hct)].
    destruct (decrypt3DES gs pw es ct) as [clear|e1] eqn:Hclear; simpl;
      [|intros [= ->]; by destruct (decrypt3DES_Err _ _ _ _ _ Hclear)].
    destruct (negb _); [done|].
    intros Hm. by destruct (getKey_master_Err _ _ _ _ _ Hm).
  - intros conn pw gs item2 rows decoded rest es ct clear Hrow Hder Hes Hct Hclear.
    rewrite (getKey_check _ _ _ _ _ _ _ _ _ _ Hrow Hder Hes Hct Hclear).
    case_bool_decide as Hcheck.
    + split; [|done]. split; [|done].
      intros Hm. by destruct (getKey_master_Err _ _ _ _ _ Hm).
    + done.
Qed.

End MasterKey.

Lemma getKey_password_check_witness :
  getKey (L := Sample.libs) (Some Fixture.store) "wrong" = Err WrongPassword
  /\ getKey (L := Sample.libs) (Some Fixture.store) "secret"
     = getKey_master (L := Sample.libs) (nssPrivate Fixture.store)
         (Fixture.globalSalt, Fixture.pbe_item "secret" PASSWORD_CHECK)
         Fixture.globalSalt "secret".
Proof.
  split.
  - eapply (proj1 (proj2 (@getKey_password_check Sample.libs))
              Fixture.store "wrong"); [reflexivity..|].
    vm_compute. discriminate.
  - eapply (proj1 (proj2 (@getKey_password_check Sample.libs))
              Fixture.store "secret"); reflexivity.
Defined.

Section MasterKeyRow.
Context {L : Libs}.

Lemma nssPrivate_scan_found (before after : list (bytes * bytes))
    (a11 : bytes) (row : bytes * bytes) :
  Forall (fun r => r.2 ≠ MAGIC1) before ->
  nssPrivate_scan (before ++ (a11, MAGIC1) :: after) row = (a11, MAGIC1).
Proof.
  intros Hbefore. revert row.
  induction Hbefore as [|r before Hr _ IH]; intros row;
    cbn [app nssPrivate_scan].
  - by rewrite bool_decide_true.
  - by rewrite bool_decide_false.
Qed.

Lemma nssPrivate_scan_none (c : list (bytes * bytes)) (row : bytes * bytes) :
  Forall (fun r => r.2 ≠ MAGIC1) c -> row.2 ≠ MAGIC1 ->
  (nssPrivate_scan c row).2 ≠ MAGIC1.
Proof.
  intros Hc. revert row.
  induction Hc as [|r c Hr _ IH]; intros row Hrow; cbn [nssPrivate_scan].
  - done.
  - rewrite bool_decide_false by done. by apply IH.
Qed.

(** C6.  Once the password check has passed, [getKey] takes the first row
    of [nssPrivate] whose second column is [MAGIC1].  If no row has it, the
    assertion of line 73 fails ([AssertionError], the specification's
    CorruptStore); when the cursor yields no row at all, the assertion is
    evaluated on the password row, whose second column is the check
    envelope.  If a row has it and its first column decodes and decrypts,
    the result is the first 24 bytes of the decrypted material. *)
Theorem getKey_master_key (conn : keydb) (masterPassword : string)
    (globalSalt item2 : bytes) (rows : list (bytes * bytes))
    (decoded : asn1) (rest entrySalt cipherT : bytes) :
  metadata_password conn = (globalSalt, item2) :: rows ->
  der_decode item2 = Some (decoded, rest) ->
  pbe_entrySalt decoded = Ok entrySalt ->
  pbe_cipherT decoded = Ok cipherT ->
  decrypt3DES globalSalt masterPassword entrySalt cipherT = Ok PASSWORD_CHECK ->
  (Forall (fun r => r.2 ≠ MAGIC1) (nssPrivate conn) ->
   (nssPrivate conn = [] -> item2 ≠ MAGIC1) ->
   getKey (Some conn) masterPassword = Err AssertionError)
  /\ (forall before a11 after decodedA11 restA11 entrySaltA11 cipherTA11 material,
        nssPrivate conn = before ++ (a11, MAGIC1) :: after ->
        Forall (fun r => r.2 ≠ MAGIC1) before ->
        der_decode a11 = Some (decodedA11, restA11) ->
        pbe_entrySalt decodedA11 = Ok entrySaltA11 ->
        pbe_cipherT decodedA11 = Ok cipherTA11 ->
        decrypt3DES globalSalt masterPassword entrySaltA11 cipherTA11
        = Ok material ->
        getKey (Some conn) masterPassword = Ok (take 24 material)).
Proof.
  intros Hrow Hder Hes Hct Hclear.
  rewrite (getKey_check _ _ _ _ _ _ _ _ _ _ Hrow Hder Hes Hct Hclear).
  rewrite bool_decide_true by done. unfold getKey_master. split.
  - intros Hnone Hempty.
    assert (Hscan : (nssPrivate_scan (nssPrivate conn) (globalSalt, item2)).2
                    ≠ MAGIC1).
    { destruct (nssPrivate conn) as [|r c] eqn:Hc.
      - by apply Hempty.
      - apply Forall_cons in Hnone as [Hr Hnone].
        change (nssPrivate_scan (r :: c) (globalSalt, item2))
          with (if bool_decide (r.2 = MAGIC1) then r else nssPrivate_scan c r).
        rewrite bool_decide_false by done. by apply nssPrivate_scan_none. }
    by rewrite bool_decide_false.
  - intros before a11 after d11 r11 es11 ct11 material Hc Hbefore Hd11 Hes11
      Hct11 Hmaterial.
    rewrite Hc, nssPrivate_scan_found by done. cbn [fst snd].
    rewrite bool_decide_true by done. cbn [negb].
    rewrite Hd11. simpl. rewrite Hes11. simpl. rewrite Hct11. simpl.
    rewrite Hmaterial. simpl. f_equal.
    change 24 with (Z.of_nat 24). apply py_slice_to_take.
Qed.

End MasterKeyRow.

Lemma getKey_master_key_witness :
  getKey (L := Sample.libs) (Some Fixture.broken_store) "secret"
  = Err AssertionError
  /\ getKey (L := Sample.libs) (Some Fixture.store) "secret"
     = Ok (take 24 Fixture.master_material).
Proof.
  split.
  - eapply (proj1 (@getKey_master_key Sample.libs Fixture.broken_store "secret"
                     _ _ _ _ _ _ _ eq_refl eq_refl eq_refl eq_refl eq_refl)).
    + repeat constructor. vm_compute. discriminate.
    + discriminate.
  - eapply (proj2 (@getKey_master_key Sample.libs Fixture.store "secret"
                     _ _ _ _ _ _ _ eq_refl eq_refl eq_refl eq_refl eq_refl)
              [([x00%byte], replicate 16 x00%byte)]); try reflexivity.
    repeat constructor. vm_compute. discriminate.
Defined.

(** ** Export *)

Section ExportLogins.
Context {L : Libs}.

Lemma export_field_spec (key : bytes) (row blank blank' : gmap string value)
    (field : string) :
  export_field key row blank field = Ok blank'
  <-> exists v, field_exported key row field v /\ blank' = <[field := v]> blank.
Proof.
  unfold export_field, field_exported, row_getitem.
  case_bool_decide as Hp; [subst field|case_bool_decide as Hl; [subst field|]].
  - destruct (row !! "encryptedPassword") as [[| | |data]|]; simpl;
      try (split; [done|by intros (v & (d & s & [= ?] & _) & _)]).
    destruct (decodeLoginData key data) as [s|e] eqn:Hs; simpl.
    + split.
      * intros [= <-]. exists (VStr s). split; [|done]. by exists data, s.
      * intros (v & (d & s' & [= <-] & Hs' & ->) & ->).
        rewrite Hs in Hs'. by injection Hs' as <-.
    + split; [done|]. intros (v & (d & s' & [= <-] & Hs' & _) & _). congruence.
  - destruct (row !! "encryptedUsername") as [[| | |data]|]; simpl;
      try (split; [done|by intros (v & (d & s & [= ?] & _) & _)]).
    destruct (decodeLoginData key data) as [s|e] eqn:Hs; simpl.
    + split.
      * intros [= <-]. exists (VStr s). split; [|done]. by exists data, s.
      * intros (v & (d & s' & [= <-] & Hs' & ->) & ->).
        rewrite Hs in Hs'. by injection Hs' as <-.
    + split; [done|]. intros (v & (d & s' & [= <-] & Hs' & _) & _). congruence.
  - destruct (row !! field) as [v|]; simpl.
    + split.
      * intros [= <-]. by exists v.
      * by intros (v' & [= <-] & ->).
    + split; [done|]. by intros (v' & ? & _).
Qed.

Lemma field_exported_functional (key : bytes) (row : gmap string value)
    (field : string) (v w : value) :
  field_exported key row field v -> field_exported key row field w -> v = w.
Proof.
  unfold field_exported. repeat case_bool_decide.
  - intros (d & s & Hd & Hs & ->) (d' & s' & Hd' & Hs' & ->). congruence.
  - intros (d & s & Hd & Hs & ->) (d' & s' & Hd' & Hs' & ->). congruence.
  - congruence.
Qed.

Lemma export_fields_spec (key : bytes) (row : gmap string value)
    (fields : list string) (blank out : gmap string value) :
  export_fields key row fields blank = Ok out
  <-> (forall f, f ∈ fields ->
         exists v, out !! f = Some v /\ field_exported key row f v)
      /\ (forall f, f ∉ fields -> out !! f = blank !! f).
Proof.
  revert blank. induction fields as [|field fields IH]; intros blank; simpl.
  - split.
    + intros [= <-]. split; [by intros f ?%elem_of_nil|done].
    + intros [_ Hout]. f_equal. apply map_eq. intros f. symmetry.
      apply Hout, not_elem_of_nil.
  - destruct (export_field key row blank field) as [blank'|e] eqn:Hfield; simpl.
    + apply export_field_spec in Hfield as (v & Hv & ->). rewrite IH. split.
      * intros [Hin Hout]. split.
        -- intros f [->|Hf]%elem_of_cons; [|by apply Hin].
           destruct (decide (field ∈ fields)) as [Hf|Hf]; [by apply Hin|].
           exists v. by rewrite Hout, lookup_insert_eq.
        -- intros f [Hne Hf]%not_elem_of_cons.
           by rewrite Hout, lookup_insert_ne.
      * intros [Hin Hout]. split.
        -- intros f Hf. apply Hin. by right.
        -- intros f Hf. destruct (decide (field = f)) as [->|Hne].
           ++ destruct (Hin f) as (w & Hw & Hfw); [by left|].
              rewrite lookup_insert_eq, Hw. f_equal.
              by eapply field_exported_functional.
           ++ rewrite lookup_insert_ne by done. apply Hout.
              by apply not_elem_of_cons.
    + split; [done|]. intros [Hin _].
      destruct (Hin field) as (v & _ & Hv); [by left|].
      assert (Hok : export_field key row blank field = Ok (<[field := v]> blank))
        by (apply export_field_spec; eauto).
      congruence.
Qed.

Lemma export_rows_spec (key : bytes) (rows : list (gmap string value))
    (fields : list string) (acc outs : list (gmap string value)) :
  export_rows key rows fields acc = Ok outs
  <-> exists new,
        outs = acc ++ new
        /\ Forall2 (fun row out => export_fields key row fields ∅ = Ok out)
             rows new.
Proof.
  revert acc. induction rows as [|row rows IH]; intros acc; simpl.
  - split.
    + intros [= <-]. exists []. by rewrite app_nil_r.
    + intros (new & -> & ->%Forall2_nil_inv_l). by rewrite app_nil_r.
  - destruct (export_fields key row fields ∅) as [blank|e] eqn:Hrow; simpl.
    + rewrite IH. split.
      * intros (new & -> & Hnew). exists (blank :: new).
        rewrite <- app_assoc. split; [done|]. by constructor.
      * intros (new & -> & Hnew).
        apply Forall2_cons_inv_l in Hnew as (out & new' & Hout & Hnew & ->).
        exists new'. rewrite <- app_assoc. split; [|done]. simpl. congruence.
    + split; [done|]. intros (new & _ & Hnew).
      apply Forall2_cons_inv_l in Hnew as (out & new' & Hout & _). congruence.
Qed.

(** What [exportLogins] returns, when it returns. *)
Lemma exportLogins_returns_iff (key : bytes) (rows : list (gmap string value))
    (fields : list string) (outs : list (gmap string value)) :
  export_rows key rows fields [] = Ok outs
  <-> Forall2 (row_exported key fields) rows outs.
Proof.
  rewrite export_rows_spec. split.
  - intros (new & -> & Hnew). simpl.
    eapply Forall2_impl; [exact Hnew|]. intros row out Hout.
    apply export_fields_spec in Hout as [Hin Hout]. split; [done|].
    intros f Hf. by rewrite Hout.
  - intros Hrows. exists outs. split; [done|].
    eapply Forall2_impl; [exact Hrows|]. intros row out [Hin Hout].
    apply export_fields_spec. split; [done|]. intros f Hf.
    by rewrite Hout, lookup_empty.
Qed.

Lemma export_fields_exportable (key : bytes) (row : gmap string value)
    (fields : list string) (blank : gmap string value) :
  row_exportable key fields row ->
  exists out, export_fields key row fields blank = Ok out.
Proof.
  revert blank. induction fields as [|f fields IH]; intros blank Hrow; simpl.
  - by eexists.
  - destruct (Hrow f) as [v Hv]; [by left|].
    assert (Hf : export_field key row blank f = Ok (<[f := v]> blank))
      by (apply export_field_spec; eauto).
    rewrite Hf. simpl. apply IH. intros g Hg. apply Hrow. by right.
Qed.

Lemma export_rows_exportable (key : bytes) (rows : list (gmap string value))
    (fields : list string) :
  Forall (row_exportable key fields) rows <->
  exists outs, export_rows key rows fields [] = Ok outs.
Proof.
  split.
  - intros Hrows.
    assert (Hnew : exists new,
      Forall2 (fun row out => export_fields key row fields ∅ = Ok out) rows new).
    { induction Hrows as [|row rows Hrow _ [new Hnew]].
      - by exists [].
      - destruct (export_fields_exportable key row fields ∅ Hrow) as [out Hout].
        exists (out :: new). by constructor. }
    destruct Hnew as [new Hnew]. exists new. apply export_rows_spec. eauto.
  - intros [outs Houts%exportLogins_returns_iff].
    induction Houts as [|row out rows outs [Hin _] _ IH]; constructor; [|done].
    intros f Hf. destruct (Hin f Hf) as (v & _ & Hv). eauto.
Qed.

End ExportLogins.

(** ** Dict equality and [list.index] *)

Lemma value_eq_refl (v : value) : value_eq v v = true.
Proof. destruct v; simpl; by rewrite ?bool_decide_true. Qed.

Lemma value_eq_str (v : value) (s : string) :
  value_eq v (VStr s) = true <-> v = VStr s.
Proof.
  destruct v; simpl; try (split; done).
  rewrite bool_decide_eq_true. split; congruence.
Qed.

Lemma dict_eq_spec (a b : gmap string value) :
  dict_eq a b = true
  <-> forall k, match a !! k, b !! k with
                | Some v, Some w => value_eq v w = true
                | None, None => True
                | _, _ => False
                end.
Proof.
  unfold dict_eq. rewrite andb_true_iff, bool_decide_eq_true, forallb_forall.
  split.
  - intros [Hdom Hall] k. destruct (a !! k) as [v|] eqn:Ha.
    + specialize (Hall (k, v)). simpl in Hall.
      destruct (b !! k); [|discriminate Hall].
      * apply Hall. by apply list_elem_of_In, elem_of_map_to_list.
      * apply list_elem_of_In, elem_of_map_to_list. done.
    + apply not_elem_of_dom in Ha. rewrite Hdom in Ha.
      apply not_elem_of_dom in Ha. by rewrite Ha.
  - intros Hk. split.
    + apply set_eq. intros k. rewrite !elem_of_dom. specialize (Hk k).
      destruct (a !! k), (b !! k); try done; split; by intros [? ?].
    + intros [k v] Hin%list_elem_of_In%elem_of_map_to_list. simpl.
      specialize (Hk k). rewrite Hin in Hk. by destruct (b !! k).
Qed.

(** Against a dict of strings, [==] is equality of the dicts. *)
Lemma dict_eq_str (a b : gmap string value) :
  map_Forall (fun _ w => exists s, w = VStr s) b ->
  dict_eq a b = true <-> a = b.
Proof.
  intros Hb. rewrite dict_eq_spec. split.
  - intros Hk. apply map_eq. intros k. specialize (Hk k).
    destruct (a !! k) as [v|], (b !! k) as [w|] eqn:Hw; try done.
    destruct (Hb k w Hw) as [s ->]. by apply value_eq_str in Hk as ->.
  - intros -> k. destruct (b !! k); [apply value_eq_refl|done].
Qed.

Lemma credential_dict_str (login : credential) :
  map_Forall (fun _ w => exists s, w = VStr s) (credential_dict login).
Proof.
  unfold credential_dict.
  repeat (apply map_Forall_insert_2; [by eexists|]). apply map_Forall_empty.
Qed.

Lemma triple_dict_lookup (t : value * string * string) :
  triple_dict t !! "hostname" = Some t.1.1
  /\ triple_dict t !! "login" = Some (VStr t.1.2)
  /\ triple_dict t !! "password" = Some (VStr t.2).
Proof.
  unfold triple_dict. split; [|split]; reflexivity.
Qed.

Lemma triple_dict_inj (t u : value * string * string) :
  triple_dict t = triple_dict u -> t = u.
Proof.
  intros Heq.
  destruct (triple_dict_lookup t) as (Hh & Hu & Hp).
  destruct (triple_dict_lookup u) as (Hh' & Hu' & Hp').
  rewrite Heq in Hh, Hu, Hp.
  destruct t as [[h1 u1] p1], u as [[h2 u2] p2]. simpl in *. congruence.
Qed.

Lemma triple_dict_credential (login : credential) :
  triple_dict (credential_triple login) = credential_dict login.
Proof.
  unfold triple_dict, credential_dict, credential_triple. simpl.
  rewrite (insert_insert_ne _ "password" "login") by done.
  rewrite (insert_insert_ne _ "password" "hostname") by done.
  by rewrite (insert_insert_ne _ "login" "hostname") by done.
Qed.

Lemma dict_eq_triple (t : value * string * string) (login : credential) :
  dict_eq (triple_dict t) (credential_dict login) = true
  <-> t = credential_triple login.
Proof.
  rewrite dict_eq_str by apply credential_dict_str.
  rewrite <- triple_dict_credential. split; [apply triple_dict_inj|by intros ->].
Qed.

Lemma py_index_Err (xs : list (gmap string value)) (x : gmap string value)
    (e : exn) :
  py_index xs x = Err e
  <-> e = ValueError /\ Forall (fun y => dict_eq y x = false) xs.
Proof.
  induction xs as [|y ys IH]; simpl.
  - split; [by intros [= <-]|by intros [-> _]].
  - destruct (dict_eq y x) eqn:Hy.
    + split; [done|]. intros [_ Hall%Forall_cons_1]. destruct Hall. congruence.
    + destruct (py_index ys x) as [i|e'] eqn:Hi; simpl.
      * split; [done|]. intros [He Hall%Forall_cons_1].
        destruct Hall as [_ Hall].
        discriminate (proj2 IH (conj He Hall)).
      * rewrite IH. split.
        -- intros [-> Hall]. split; [done|]. by constructor.
        -- intros [-> Hall%Forall_cons_1]. by destruct Hall.
Qed.

Lemma py_index_Ok (xs : list (gmap string value)) (x : gmap string value)
    (i : nat) :
  py_index xs x = Ok i
  <-> exists y, xs !! i = Some y /\ dict_eq y x = true
                /\ Forall (fun z => dict_eq z x = false) (take i xs).
Proof.
  revert i. induction xs as [|y ys IH]; intros i; simpl.
  - split; [done|]. by intros (y & Hy & _).
  - destruct (dict_eq y x) eqn:Hy.
    + split.
      * intros [= <-]. exists y. by repeat split.
      * intros (z & Hz & Hzx & Hall). destruct i as [|i]; [done|].
        simpl in Hall. apply Forall_cons_1 in Hall as [Hall _]. congruence.
    + destruct i as [|i].
      * split.
        -- destruct (py_index ys x); simpl; by intros [= ?].
        -- intros (z & [= <-] & Hzx & _). congruence.
      * simpl. specialize (IH i). split.
        -- destruct (py_index ys x) as [j|e']; simpl; [|done].
           intros [= ->]. destruct (proj1 IH eq_refl) as (z & Hz & Hzx & Hall).
           exists z. repeat split; try done. by constructor.
        -- intros (z & Hz & Hzx & [_ Hall]%Forall_cons_1).
           assert (Hi : py_index ys x = Ok i) by (apply IH; eauto).
           by rewrite Hi.
Qed.

(** ** Removal *)

Section Removal.
Context {L : Libs}.

Lemma export_fields_triple (key : bytes) (row : gmap string value) :
  export_fields key row ["hostname"; "login"; "password"] ∅
  = (t ← row_triple key row; mret (triple_dict t)).
Proof.
  unfold export_fields, export_field, row_triple.
  rewrite (bool_decide_false ("hostname" = "password")) by done.
  rewrite (bool_decide_false ("hostname" = "login")) by done.
  rewrite (bool_decide_false ("login" = "password")) by done.
  rewrite (bool_decide_true ("login" = "login")) by done.
  rewrite (bool_decide_true ("password" = "password")) by done.
  destruct (row_getitem row "hostname") as [h|]; simpl; [|done].
  destruct (row_getitem row "encryptedUsername") as [du|]; simpl; [|done].
  destruct (as_str du) as [su|]; simpl; [|done].
  destruct (decodeLoginData key su) as [u|]; simpl; [|done].
  destruct (row_getitem row "encryptedPassword") as [dp|]; simpl; [|done].
  destruct (as_str dp) as [sp|]; simpl; [|done].
  by destruct (decodeLoginData key sp) as [p|].
Qed.

(** The export that [getLogin] runs, record by record. *)
Lemma export_rows_triples (key : bytes) (rows : list (gmap string value))
    (ts : list (value * string * string)) :
  Forall2 (fun row t => row_triple key row = Ok t) rows ts ->
  export_rows key rows ["hostname"; "login"; "password"] []
  = Ok (triple_dict <$> ts).
Proof.
  intros Hts. apply export_rows_spec. exists (triple_dict <$> ts).
  split; [done|]. apply Forall2_fmap_r.
  eapply Forall2_impl; [exact Hts|]. intros row t Ht. cbv beta.
  by rewrite export_fields_triple, Ht.
Qed.

Lemma export_rows_length (key : bytes) (rows : list (gmap string value))
    (fields : list string) (outs : list (gmap string value)) :
  export_rows key rows fields [] = Ok outs -> length outs = length rows.
Proof.
  intros (new & -> & Hnew)%export_rows_spec. simpl. symmetry.
  by eapply Forall2_length.
Qed.

(** A lookup that raises leaves the document as it was. *)
Lemma delNewLogin_lookup_fails (key : bytes) (jsonLogins : document)
    (login : credential) (e : exn) :
  (getLogin (cred_hostname login) (cred_login login) (cred_password login)
     key jsonLogins).2 = Err e ->
  (delNewLogin key jsonLogins login).2 = (Err e, jsonLogins).
Proof.
  unfold delNewLogin. destruct (getLogin _ _ _ _ _) as [err found]. simpl.
  by intros ->.
Qed.

Lemma getLogin_index (key : bytes) (jsonLogins : document) (login : credential) :
  (getLogin (cred_hostname login) (cred_login login) (cred_password login)
     key jsonLogins).2
  = (outs ← (exportLogins key jsonLogins ["hostname"; "login"; "password"]).2;
     py_index outs (credential_dict login)).
Proof.
  unfold getLogin. by destruct (exportLogins _ _ _) as [err exported].
Qed.

(** C7.  When the triple of [login] equals the decrypted triple of no
    stored record (in particular when the document has no 'logins' key),
    [delNewLogin] raises the ValueError of [list.index], the
    specification's RecordNotFound, and the document is left as it was:
    the same records and the same counter. *)
Theorem delNewLogin_not_found (key : bytes) (jsonLogins : document)
    (login : credential) :
  (forall rows, logins jsonLogins = Some rows ->
     Forall (fun row => exists t, row_triple key row = Ok t
                                  /\ t ≠ credential_triple login) rows) ->
  (delNewLogin key jsonLogins login).2 = (Err ValueError, jsonLogins).
Proof.
  intros Hrows. apply delNewLogin_lookup_fails. rewrite getLogin_index.
  unfold exportLogins. destruct (logins jsonLogins) as [rows|]; [|done].
  specialize (Hrows rows eq_refl). simpl.
  assert (Hts : exists ts,
    Forall2 (fun row t => row_triple key row = Ok t) rows ts
    /\ Forall (fun t => t ≠ credential_triple login) ts).
  { induction Hrows as [|row rows (t & Ht & Hne) _ (ts & Hts & Hnes)].
    - by exists [].
    - exists (t :: ts). split; by constructor. }
  destruct Hts as (ts & Hts & Hnes).
  rewrite (export_rows_triples _ _ _ Hts). simpl.
  apply py_index_Err. split; [done|].
  apply Forall_fmap. eapply Forall_impl; [exact Hnes|]. intros t Hne. simpl.
  apply not_true_is_false. by rewrite dict_eq_triple.
Qed.

End Removal.

Lemma delNewLogin_not_found_witness :
  (delNewLogin (L := Sample.libs) Fixture.key Fixture.doc_alice Fixture.bob).2
  = (Err ValueError, Fixture.doc_alice).
Proof.
  apply (@delNewLogin_not_found Sample.libs Fixture.key Fixture.doc_alice
           Fixture.bob).
  intros rows [= <-]. repeat constructor. eexists. split; [reflexivity|].
  vm_compute. discriminate.
Defined.

(** ** Addition, and addition followed by removal *)

Lemma document_eta (jsonLogins : document) (rows : list (gmap string value))
    (n : Z) :
  logins jsonLogins = Some rows -> nextId jsonLogins = Some n ->
  jsonLogins = mk_document rows n.
Proof. destruct jsonLogins as [l c]. simpl. by intros -> ->. Qed.

Lemma new_entry_id (n timestamp : Z) (h eu ep guid : string) :
  row_id (new_entry n timestamp h eu ep guid) = Some n.
Proof. reflexivity. Qed.

Section Mutation.
Context {L : Libs}.

Lemma new_entry_triple (key : bytes) (n timestamp : Z)
    (h eu ep guid u p : string) :
  decodeLoginData key eu = Ok u -> decodeLoginData key ep = Ok p ->
  row_triple key (new_entry n timestamp h eu ep guid) = Ok (VStr h, u, p).
Proof.
  intros Hu Hp. unfold row_triple.
  change (row_getitem (new_entry n timestamp h eu ep guid) "hostname")
    with (Ok (A := value) (VStr h)).
  change (row_getitem (new_entry n timestamp h eu ep guid) "encryptedUsername")
    with (Ok (A := value) (VStr eu)).
  change (row_getitem (new_entry n timestamp h eu ep guid) "encryptedPassword")
    with (Ok (A := value) (VStr ep)).
  simpl. rewrite Hu. simpl. by rewrite Hp.
Qed.

(** What one call of [addNewLogin] does to a document that has both keys:
    it appends one record, numbered with the counter, and adds one to the
    counter; or it raises and changes nothing. *)
Lemma addNewLogin_shape (env : add_env) (key : bytes)
    (rows : list (gmap string value)) (n : Z) (login : credential) :
  match addNewLogin env key (mk_document rows n) login with
  | (Ok _, after) =>
    exists entry, row_id entry = Some n
                  /\ after = mk_document (rows ++ [entry]) (n + 1)
  | (Err _, after) => after = mk_document rows n
  end.
Proof.
  unfold addNewLogin. simpl.
  destruct (encodeLoginData key _ (cred_login login)) as [eu|]; simpl; [|done].
  destruct (encodeLoginData key _ (cred_password login)) as [ep|]; simpl; [|done].
  eexists. split; [|done]. apply new_entry_id.
Qed.

(** The same for [delNewLogin]: it deletes the record at one index and
    takes one from the counter; or it raises and changes nothing. *)
Lemma delNewLogin_shape (key : bytes) (rows : list (gmap string value))
    (n : Z) (login : credential) :
  match (delNewLogin key (mk_document rows n) login).2 with
  | (Ok _, after) =>
    exists i, (i < length rows)%nat
              /\ after = mk_document (delete i rows) (n - 1)
  | (Err _, after) => after = mk_document rows n
  end.
Proof.
  unfold delNewLogin. destruct (getLogin _ _ _ _ _) as [err [i|e]]; simpl;
    [|done].
  case_bool_decide; simpl; [|done]. by exists i.
Qed.

Lemma delNewLogin_found (key : bytes) (rows : list (gmap string value))
    (n : Z) (login : credential) (ts : list (value * string * string))
    (i : nat) :
  Forall2 (fun row t => row_triple key row = Ok t) rows ts ->
  py_index (triple_dict <$> ts) (credential_dict login) = Ok i ->
  (delNewLogin key (mk_document rows n) login).2
  = (Ok (), mk_document (delete i rows) (n - 1)).
Proof.
  intros Hts Hi.
  assert (Hget : (getLogin (cred_hostname login) (cred_login login)
                    (cred_password login) key (mk_document rows n)).2 = Ok i).
  { rewrite getLogin_index. unfold exportLogins, mk_document. cbn [logins snd].
    rewrite (export_rows_triples _ _ _ Hts). exact Hi. }
  unfold delNewLogin.
  destruct (getLogin _ _ _ _ _) as [err found]. cbn [snd] in *. subst found.
  apply py_index_Ok in Hi as (y & Hy & _).
  apply lookup_lt_Some in Hy. rewrite length_fmap in Hy.
  rewrite <- (Forall2_length _ _ _ Hts) in Hy.
  unfold mk_document. cbn [logins nextId].
  by rewrite bool_decide_true.
Qed.

Context {laws : LibsLaws L}.

Lemma decodeLoginData_encoded (key iv : bytes) (s : string) :
  des3_key_ok key = true -> length iv = 8%nat ->
  utf8_valid (str_encode s) = true ->
  exists data,
    encodeLoginData key iv s = Ok data /\ decodeLoginData key data = Ok s.
Proof.
  intros Hkey Hiv Hs.
  destruct (encodeLoginData_Ok key iv s Hkey Hiv)
    as (des & padded & c & Hdes & Hpad & Henc & Hdec & Hdata).
  eexists. split; [exact Hdata|].
  rewrite (decodeLoginData_envelope key _ _ iv c [] (b64_round_trip _)
             (der_round_trip iv c Hiv)).
  rewrite Hdes. simpl. rewrite Hdec. simpl.
  rewrite (PKCS7unpad_PKCS7pad _ _ Hpad). simpl.
  by apply bytes_decode_str_encode.
Qed.

Lemma addNewLogin_Ok (env : add_env) (key : bytes)
    (rows : list (gmap string value)) (n : Z) (login : credential) :
  des3_key_ok key = true ->
  length (env_iv_username env) = 8%nat ->
  length (env_iv_password env) = 8%nat ->
  utf8_valid (str_encode (cred_login login)) = true ->
  utf8_valid (str_encode (cred_password login)) = true ->
  exists entry,
    addNewLogin env key (mk_document rows n) login
    = (Ok (), mk_document (rows ++ [entry]) (n + 1))
    /\ row_id entry = Some n
    /\ row_triple key entry = Ok (credential_triple login).
Proof.
  intros Hkey Hivu Hivp Hu Hp.
  destruct (decodeLoginData_encoded key _ _ Hkey Hivu Hu) as (eu & Heu & Hdu).
  destruct (decodeLoginData_encoded key _ _ Hkey Hivp Hp) as (ep & Hep & Hdp).
  eexists. split; [|split].
  - unfold addNewLogin, mk_document. cbn [logins nextId].
    rewrite Heu. simpl. rewrite Hep. simpl. reflexivity.
  - apply new_entry_id.
  - by apply new_entry_triple.
Qed.

End Mutation.

Section AddThenRemove.
Context {L : Libs} {laws : LibsLaws L}.

(** C8, as the code has it.  On a document with both keys whose records
    all decrypt under the key, [addNewLogin] followed by [delNewLogin] with
    the same triple succeeds, brings the counter back to its value before
    the addition and leaves as many records as before it.  The record
    removed is the first whose decrypted triple equals the triple: the
    added one when no earlier record matches, in which case the record list
    is the one before the addition. *)
Theorem addNewLogin_delNewLogin (env : add_env) (key : bytes)
    (jsonLogins : document) (login : credential)
    (rows : list (gmap string value)) (n : Z)
    (ts : list (value * string * string)) :
  length key = 24%nat -> des3_key_ok key = true ->
  length (env_iv_username env) = 8%nat ->
  length (env_iv_password env) = 8%nat ->
  utf8_valid (str_encode (cred_login login)) = true ->
  utf8_valid (str_encode (cred_password login)) = true ->
  logins jsonLogins = Some rows -> nextId jsonLogins = Some n ->
  Forall2 (fun row t => row_triple key row = Ok t) rows ts ->
  exists entry i,
    addNewLogin env key jsonLogins login
    = (Ok (), mk_document (rows ++ [entry]) (n + 1))
    /\ row_triple key entry = Ok (credential_triple login)
    /\ (delNewLogin key (mk_document (rows ++ [entry]) (n + 1)) login).2
       = (Ok (), mk_document (delete i (rows ++ [entry])) n)
    /\ length (delete i (rows ++ [entry])) = length rows
    /\ (ts ++ [credential_triple login]) !! i = Some (credential_triple login)
    /\ Forall (fun t => t ≠ credential_triple login) (take i ts)
    /\ (Forall (fun t => t ≠ credential_triple login) ts ->
        delete i (rows ++ [entry]) = rows).
Proof.
  intros _ Hkey Hivu Hivp Hu Hp Hrows Hn Hts.
  rewrite (document_eta _ _ _ Hrows Hn).
  destruct (addNewLogin_Ok env key rows n login Hkey Hivu Hivp Hu Hp)
    as (entry & Hadd & _ & Hentry).
  assert (Hts' : Forall2 (fun row t => row_triple key row = Ok t)
                   (rows ++ [entry]) (ts ++ [credential_triple login])).
  { apply Forall2_app; [done|]. by repeat constructor. }
  destruct (py_index (triple_dict <$> (ts ++ [credential_triple login]))
              (credential_dict login)) as [i|e] eqn:Hi.
  - exists entry, i.
    pose proof (delNewLogin_found key _ (n + 1) login _ i Hts' Hi) as Hdel.
    replace (n + 1 - 1) with n in Hdel by lia.
    apply py_index_Ok in Hi as (y & Hy & Heq & Hfirst).
    rewrite list_lookup_fmap in Hy.
    destruct ((ts ++ [credential_triple login]) !! i) as [t|] eqn:Ht; [|done].
    injection Hy as <-. apply dict_eq_triple in Heq as ->.
    pose proof (lookup_lt_Some _ _ _ Ht) as Hlt.
    rewrite length_app in Hlt. simpl in Hlt.
    pose proof (Forall2_length _ _ _ Hts) as Hlen.
    assert (Hfirst' : Forall (fun t => t ≠ credential_triple login) (take i ts)).
    { rewrite <- fmap_take, take_app_le in Hfirst by lia.
      apply Forall_fmap in Hfirst. eapply Forall_impl; [exact Hfirst|].
      intros t Hne ->. simpl in Hne.
      by rewrite (proj2 (dict_eq_triple _ _) eq_refl) in Hne. }
    repeat split; try done.
    + rewrite length_delete; [rewrite length_app; simpl; lia|].
      apply lookup_lt_is_Some. rewrite length_app. simpl. lia.
    + intros Hnone. assert (i = length rows) as ->.
      { destruct (decide (i < length ts)%nat) as [Hi|Hi]; [|lia].
        rewrite lookup_app_l in Ht by done.
        rewrite Forall_forall in Hnone.
        destruct (Hnone _ (list_elem_of_lookup_2 _ _ _ Ht)). done. }
      rewrite delete_take_drop, take_app_length.
      rewrite drop_ge by (rewrite length_app; simpl; lia).
      by rewrite app_nil_r.
  - apply py_index_Err in Hi as [_ Hall]. rewrite fmap_app in Hall.
    apply Forall_app in Hall as [_ Hall]. simpl in Hall.
    apply Forall_cons_1 in Hall as [Hne _].
    by rewrite (proj2 (dict_eq_triple _ _) eq_refl) in Hne.
Qed.

End AddThenRemove.

Lemma addNewLogin_delNewLogin_witness :
  exists entry,
    addNewLogin (L := Sample.libs) Fixture.env1 Fixture.key Fixture.empty_doc
      Fixture.alice
    = (Ok (), mk_document ([] ++ [entry]) (0 + 1))
    /\ (delNewLogin (L := Sample.libs) Fixture.key
          (mk_document ([] ++ [entry]) (0 + 1)) Fixture.alice).2
       = (Ok (), Fixture.empty_doc).
Proof.
  destruct (@addNewLogin_delNewLogin Sample.libs SampleFacts.laws Fixture.env1
              Fixture.key Fixture.empty_doc Fixture.alice [] 0 [])
    as (entry & i & Hadd & _ & Hdel & _ & _ & _ & Hsame);
    try reflexivity; [constructor|].
  exists entry. split; [exact Hadd|]. rewrite Hdel, Hsame; [reflexivity|].
  constructor.
Defined.

(** C8, the claim as stated fails.  When a record with the same triple is
    already stored, the removal takes that earlier record (number 0) and
    the record just added (number 1) stays, under a counter of 1.  And on a
    document with a record that has no encrypted fields, the addition
    succeeds but the removal raises KeyError, so the counter stays at its
    value after the addition. *)
Lemma addNewLogin_delNewLogin_keeps_added :
  (logins Fixture.doc_alice = Some [Fixture.alice_first]
   /\ nextId Fixture.doc_alice = Some 1
   /\ addNewLogin (L := Sample.libs) Fixture.env2 Fixture.key
        Fixture.doc_alice Fixture.alice
      = (Ok (), mk_document [Fixture.alice_first; Fixture.alice_second] 2)
   /\ (delNewLogin (L := Sample.libs) Fixture.key
         (mk_document [Fixture.alice_first; Fixture.alice_second] 2)
         Fixture.alice).2
      = (Ok (), mk_document [Fixture.alice_second] 1)
   /\ row_id Fixture.alice_first = Some 0
   /\ row_id Fixture.alice_second = Some 1)
  /\ (nextId Fixture.doc_undecryptable = Some 1
      /\ addNewLogin (L := Sample.libs) Fixture.env1 Fixture.key
           Fixture.doc_undecryptable Fixture.alice
         = (Ok (), Fixture.doc_undecryptable_added)
      /\ (delNewLogin (L := Sample.libs) Fixture.key
            Fixture.doc_undecryptable_added Fixture.alice).2
         = (Err KeyError, Fixture.doc_undecryptable_added)
      /\ nextId Fixture.doc_undecryptable_added = Some 2).
Proof. repeat split; vm_compute; reflexivity. Qed.

(** ** Sequences of additions and removals *)

Lemma doc_inv_append (rows : list (gmap string value)) (n : Z)
    (entry : gmap string value) :
  row_id entry = Some n ->
  doc_inv (mk_document rows n) -> doc_inv (mk_document (rows ++ [entry]) (n + 1)).
Proof.
  intros Hentry (ids & Hids & Hnodup & Hlt). exists (ids ++ [n]).
  split; [|split].
  - apply mapM_Some. apply Forall2_app; [by apply mapM_Some|].
    by repeat constructor.
  - apply NoDup_app. split; [done|]. split; [|apply NoDup_singleton].
    intros i Hi ->%list_elem_of_singleton.
    rewrite Forall_forall in Hlt. specialize (Hlt _ Hi). lia.
  - apply Forall_app. split.
    + eapply Forall_impl; [exact Hlt|]. simpl. lia.
    + repeat constructor. lia.
Qed.

Section Sequences.
Context {L : Libs}.

(** C9, as the code has it.  On a document with both keys, a successful
    [addNewLogin] appends one record numbered with the counter and adds one
    to the counter, which keeps the identifiers unique and below the
    counter; a successful [delNewLogin] deletes the record at one index and
    takes exactly one from the counter, renumbering nothing; a call that
    raises changes nothing.  So along every sequence of calls the counter
    minus the number of records is constant. *)
Theorem counter_tracks_mutations (key : bytes)
    (rows : list (gmap string value)) (n : Z) :
  (forall o,
     match apply_op key (mk_document rows n) o with
     | (Ok _, after) =>
       match o with
       | OpAdd _ _ =>
         exists entry,
           row_id entry = Some n
           /\ after = mk_document (rows ++ [entry]) (n + 1)
           /\ (doc_inv (mk_document rows n) -> doc_inv after)
       | OpDel _ =>
         exists i, (i < length rows)%nat
                   /\ after = mk_document (delete i rows) (n - 1)
       end
     | (Err _, after) => after = mk_document rows n
     end)
  /\ (forall os,
        exists rows' n',
          apply_ops key (mk_document rows n) os = mk_document rows' n'
          /\ n' - py_len rows' = n - py_len rows).
Proof.
  assert (Hstep : forall rows n o,
    match apply_op key (mk_document rows n) o with
    | (Ok _, after) =>
      match o with
      | OpAdd _ _ =>
        exists entry,
          row_id entry = Some n
          /\ after = mk_document (rows ++ [entry]) (n + 1)
          /\ (doc_inv (mk_document rows n) -> doc_inv after)
      | OpDel _ =>
        exists i, (i < length rows)%nat
                  /\ after = mk_document (delete i rows) (n - 1)
      end
    | (Err _, after) => after = mk_document rows n
    end).
  { intros rows0 n0 [env login|login]; cbn [apply_op].
    - pose proof (addNewLogin_shape env key rows0 n0 login) as Hadd.
      destruct (addNewLogin _ _ _ _) as [[[]|e] after]; [|done].
      destruct Hadd as (entry & Hid & ->). exists entry.
      repeat split; try done. by apply doc_inv_append.
    - pose proof (delNewLogin_shape key rows0 n0 login) as Hdel.
      destruct ((delNewLogin _ _ _).2) as [[[]|e] after]; exact Hdel. }
  split; [apply Hstep|].
  intros os. revert rows n. induction os as [|o os IH]; intros rows n; simpl.
  - by exists rows, n.
  - specialize (Hstep rows n o).
    destruct (apply_op key (mk_document rows n) o) as [[[]|e] after]; simpl.
    + destruct o as [env login|login].
      * destruct Hstep as (entry & _ & -> & _).
        destruct (IH (rows ++ [entry]) (n + 1)) as (rows' & n' & -> & Heq).
        exists rows', n'. split; [done|]. rewrite py_len_app in Heq.
        unfold py_len in *. simpl in Heq. lia.
      * destruct Hstep as (i & Hi & ->).
        destruct (IH (delete i rows) (n - 1)) as (rows' & n' & -> & Heq).
        exists rows', n'. split; [done|]. unfold py_len in *.
        rewrite length_delete in Heq by by apply lookup_lt_is_Some. lia.
    + subst after. apply IH.
Qed.

End Sequences.

(** C9, the claim as stated fails.  From the empty document, which has the
    invariant, adding alice and bob and then removing alice leaves bob's
    record, numbered 1, under a counter of 1: the identifier is no longer
    below the counter. *)
Lemma doc_inv_broken_by_removal :
  doc_inv Fixture.empty_doc
  /\ apply_ops (L := Sample.libs) Fixture.key Fixture.empty_doc Fixture.ops
     = mk_document [Fixture.bob_entry] 1
  /\ row_id Fixture.bob_entry = Some 1
  /\ ~ doc_inv (apply_ops (L := Sample.libs) Fixture.key Fixture.empty_doc
                  Fixture.ops).
Proof.
  assert (Hfinal : apply_ops (L := Sample.libs) Fixture.key Fixture.empty_doc
                     Fixture.ops = mk_document [Fixture.bob_entry] 1)
    by (vm_compute; reflexivity).
  assert (Hid : row_id Fixture.bob_entry = Some 1) by (vm_compute; reflexivity).
  split; [|split; [done|split; [done|]]].
  - exists []. split; [done|]. split; constructor.
  - rewrite Hfinal. intros (ids & Hids & _ & Hlt).
    apply mapM_Some in Hids.
    apply Forall2_cons_inv_l in Hids as (i & ids' & Hi & _ & ->).
    rewrite Hid in Hi. injection Hi as <-.
    apply Forall_cons_1 in Hlt as [Hlt _]. lia.
Qed.

(** ** Export of a whole document *)

Section ExportDocument.
Context {L : Libs} {laws : LibsLaws L}.

(** C10, as the code has it.  Without a 'logins' key [exportLogins] prints
    one line to stderr and returns the empty list.  With the key it prints
    nothing.  When every record holds the requested fields, with
    'encryptedUsername' and 'encryptedPassword' decrypting under the key
    where 'login' and 'password' are requested, it returns one record per
    stored record, in the order of the store, each holding the requested
    fields and no other: 'login' and 'password' decrypted, any other field
    as stored; and it returns nothing else.  When some record lacks a
    requested field or does not decrypt, it raises.  Decrypted means: a
    field that [encodeLoginData] made from a text under the key is exported
    as that text. *)
Theorem exportLogins_correct (key : bytes) (jsonLogins : document)
    (fields : list string) :
  (logins jsonLogins = None ->
   exportLogins key jsonLogins fields
   = (["error: no 'logins' key in logins.json"], Ok []))
  /\ (forall rows,
        logins jsonLogins = Some rows ->
        (Forall (row_exportable key fields) rows ->
         exists outs,
           exportLogins key jsonLogins fields = ([], Ok outs)
           /\ Forall2 (row_exported key fields) rows outs)
        /\ (forall outs,
              exportLogins key jsonLogins fields = ([], Ok outs)
              <-> Forall2 (row_exported key fields) rows outs)
        /\ (~ Forall (row_exportable key fields) rows ->
            exists e, exportLogins key jsonLogins fields = ([], Err e)))
  /\ (forall row iv s data,
        des3_key_ok key = true -> length iv = 8%nat ->
        utf8_valid (str_encode s) = true ->
        encodeLoginData key iv s = Ok data ->
        (row !! "encryptedUsername" = Some (VStr data) ->
         field_exported key row "login" (VStr s))
        /\ (row !! "encryptedPassword" = Some (VStr data) ->
            field_exported key row "password" (VStr s))).
Proof.
  split; [|split].
  - intros Hnone. unfold exportLogins. by rewrite Hnone.
  - intros rows Hrows. unfold exportLogins. rewrite Hrows.
    split; [|split].
    + intros [outs Houts]%export_rows_exportable. exists outs.
      split; [by rewrite Houts|]. by apply exportLogins_returns_iff.
    + intros outs. rewrite <- exportLogins_returns_iff. split.
      * by intros [= ->].
      * by intros ->.
    + intros Hnot. destruct (export_rows key rows fields []) as [outs|e] eqn:Ho.
      * destruct Hnot. apply export_rows_exportable. eauto.
      * by exists e.
  - intros row iv s data Hkey Hiv Hs Hdata.
    destruct (decodeLoginData_encoded key iv s Hkey Hiv Hs)
      as (data' & Hdata' & Hdec).
    rewrite Hdata in Hdata'. injection Hdata' as <-.
    unfold field_exported. split; intros Hrow.
    + rewrite (bool_decide_false ("login" = "password")) by done.
      rewrite (bool_decide_true ("login" = "login")) by done.
      by exists data, s.
    + rewrite (bool_decide_true ("password" = "password")) by done.
      by exists data, s.
Qed.

End ExportDocument.

Lemma exportLogins_correct_witness :
  exists outs,
    exportLogins (L := Sample.libs) Fixture.key Fixture.doc_alice
      ["hostname"; "login"; "password"]
    = ([], Ok outs)
    /\ Forall2 (row_exported (L := Sample.libs) Fixture.key
                  ["hostname"; "login"; "password"])
         [Fixture.alice_first] outs
    /\ outs = [{["hostname" := VStr "https://example.org";
                 "login" := VStr "alice"; "password" := VStr "wonderland"]}].
Proof.
  assert (Hrows : logins Fixture.doc_alice = Some [Fixture.alice_first])
    by (vm_cast_no_check (eq_refl (Some [Fixture.alice_first]))).
  destruct (proj1 (proj1 (proj2 (@exportLogins_correct Sample.libs
                                   SampleFacts.laws Fixture.key
                                   Fixture.doc_alice
                                   ["hostname"; "login"; "password"]))
                     [Fixture.alice_first] Hrows))
    as (outs & Hexp & Hall).
  - constructor; [|constructor]. intros f Hf. unfold field_exported.
    apply elem_of_cons in Hf as [->|Hf];
      [|apply elem_of_cons in Hf as [->|Hf];
        [|apply elem_of_cons in Hf as [->|Hf];
          [|by apply elem_of_nil in Hf]]].
    + exists (VStr "https://example.org"). vm_compute. reflexivity.
    + exists (VStr "alice").
      rewrite (bool_decide_false ("login" = "password")) by done.
      rewrite (bool_decide_true ("login" = "login")) by done.
      exists Unreadable.alice_encryptedUsername, "alice".
      split; [vm_compute; reflexivity|].
      split; [vm_compute; reflexivity|reflexivity].
    + exists (VStr "wonderland").
      rewrite (bool_decide_true ("password" = "password")) by done.
      exists Unreadable.alice_encryptedPassword, "wonderland".
      split; [vm_compute; reflexivity|].
      split; [vm_compute; reflexivity|reflexivity].
  - exists outs. split; [exact Hexp|]. split; [exact Hall|].
    assert (Hrun : exportLogins (L := Sample.libs) Fixture.key
                     Fixture.doc_alice ["hostname"; "login"; "password"]
                   = ([], Ok [{["hostname" := VStr "https://example.org";
                                "login" := VStr "alice";
                                "password" := VStr "wonderland"]}]))
      by (vm_compute; reflexivity).
    rewrite Hrun in Hexp. by injection Hexp as <-.
Defined.

(** C10, the claim as stated fails: a document that has the 'logins' key
    need not give a list.  A record without encrypted fields raises
    KeyError when 'login' is requested; a record whose encrypted field is
    not base 64 raises the error of [b64decode]; a requested field that the
    record does not hold raises KeyError. *)
Lemma exportLogins_raises :
  (exists rows, logins Fixture.doc_undecryptable = Some rows)
  /\ exportLogins (L := Sample.libs) Fixture.key Fixture.doc_undecryptable
       ["hostname"; "login"]
     = ([], Err KeyError)
  /\ (exists rows, logins Unreadable.doc_garbled = Some rows)
  /\ exportLogins (L := Sample.libs) Fixture.key Unreadable.doc_garbled
       ["hostname"; "password"]
     = ([], Err BinasciiError)
  /\ (exists rows, logins Fixture.doc_alice = Some rows)
  /\ exportLogins (L := Sample.libs) Fixture.key Fixture.doc_alice
       ["hostname"; "nosuchfield"]
     = ([], Err KeyError).
Proof.
  split; [by eexists|]. split; [vm_compute; reflexivity|].
  split; [by eexists|]. split; [vm_compute; reflexivity|].
  split.
  - exists [Fixture.alice_first].
    vm_cast_no_check (eq_refl (Some [Fixture.alice_first])).
  - vm_compute. reflexivity.
Qed.

(** * Further properties of the code *)

(** ** Padding *)

(** X1.  Unpadding undoes padding: for every byte string [b],
    [PKCS7unpad(PKCS7pad(b))] returns [b]. *)
Theorem PKCS7unpad_after_PKCS7pad (b : bytes) :
  (padded ← PKCS7pad b; PKCS7unpad padded) = Ok b.
Proof.
  destruct (PKCS7pad_total b) as [padded Hpad]. rewrite Hpad. simpl.
  by apply PKCS7unpad_PKCS7pad.
Qed.

(** X2.  When the last byte of a non-empty input is 0, or is larger than
    the length of the input, [PKCS7unpad] returns the empty byte string:
    the slice [b[:-0]] is [b[:0]], and a slice bound below the start is
    clamped to it. *)
Theorem PKCS7unpad_out_of_range (b : bytes) (c : byte) :
  int_of_byte c = 0 \/ py_len (b ++ [c]) < int_of_byte c ->
  PKCS7unpad (b ++ [c]) = Ok [].
Proof.
  intros Hc. rewrite PKCS7unpad_cases. by rewrite bool_decide_false by lia.
Qed.

Lemma PKCS7unpad_out_of_range_witness :
  PKCS7unpad ([x61; x62]%byte ++ [x00%byte]) = Ok []
  /\ PKCS7unpad ([x61; x62]%byte ++ [x07%byte]) = Ok [].
Proof.
  split.
  - apply (PKCS7unpad_out_of_range [x61; x62]%byte x00%byte). left. reflexivity.
  - apply (PKCS7unpad_out_of_range [x61; x62]%byte x07%byte). right.
    vm_compute. reflexivity.
Defined.

(** ** Credential codec *)

Section CodecChecks.
Context {L : Libs}.

(** X3.  An envelope of the expected shape whose marker is not [MAGIC1],
    or whose object identifier is not [MAGIC2], makes [decodeLoginData]
    fail its assertion, whatever the key: nothing is decrypted. *)
Theorem decodeLoginData_wrong_marker (key : bytes) (data : string)
    (raw marker : bytes) (oid : list Z) (iv ciphertext rest : bytes) :
  b64decode data = Some raw ->
  der_decode raw
  = Some (Sequence [OctetString marker;
                    Sequence [ObjectIdentifier oid; OctetString iv];
                    OctetString ciphertext], rest) ->
  marker ≠ MAGIC1 \/ oid ≠ MAGIC2 ->
  decodeLoginData key data = Err AssertionError.
Proof.
  intros Hraw Hder Hbad. unfold decodeLoginData. rewrite Hraw. simpl.
  rewrite Hder. simpl.
  destruct (decide (marker = MAGIC1)) as [Hm|Hm].
  - rewrite bool_decide_true by done. simpl.
    destruct Hbad as [?|Ho]; [done|]. by rewrite bool_decide_false.
  - by rewrite bool_decide_false.
Qed.

Context {laws : LibsLaws L}.

(** X15.  Under the contract of the libraries and for a text that
    [str.encode()] accepts (valid UTF-8, so no lone surrogate),
    [encodeLoginData] raises only when [DES3.new] refuses the key or the
    initialisation vector, and then with its ValueError: no such text makes
    it fail, whatever its length. *)
Theorem encodeLoginData_fails_on_key_only (key iv : bytes) (s : string)
    (e : exn) :
  utf8_valid (str_encode s) = true ->
  encodeLoginData key iv s = Err e <-> DES3_new key iv = None /\ e = ValueError.
Proof.
  intros _. unfold encodeLoginData.
  destruct (DES3_new key iv) as [des|] eqn:Hdes; simpl.
  - split; [|by intros [? _]].
    destruct (PKCS7pad_total (str_encode s)) as [padded Hpad]. rewrite Hpad.
    simpl.
    destruct (des3_round_trip key iv des des padded Hdes Hdes
                (PKCS7pad_length _ _ Hpad)) as (c & Henc & _).
    rewrite Henc. simpl. unfold bytes_decode. by rewrite b64encode_ascii.
  - split; [by intros [= <-]|by intros [_ ->]].
Qed.

End CodecChecks.

Lemma decodeLoginData_wrong_marker_witness :
  decodeLoginData (L := SampleMarker.libs) Fixture.key
    SampleMarker.field_wrong_marker
  = Err AssertionError.
Proof.
  eapply (@decodeLoginData_wrong_marker SampleMarker.libs Fixture.key
            SampleMarker.field_wrong_marker);
    [vm_compute; reflexivity|vm_compute; reflexivity|].
  left. discriminate.
Defined.

Lemma encodeLoginData_fails_on_key_only_witness :
  encodeLoginData (L := Sample.libs) [x01%byte] Fixture.iv1 "alice"
  = Err ValueError.
Proof.
  apply (@encodeLoginData_fails_on_key_only Sample.libs SampleFacts.laws
           [x01%byte] Fixture.iv1 "alice" ValueError).
  - reflexivity.
  - split; reflexivity.
Defined.

(** ** Master key and password prompt *)

Lemma asn1_getitem_no_assertion (v : asn1) (i : Z) (e : exn) :
  asn1_getitem v i = Err e -> e ≠ AssertionError.
Proof.
  destruct v; simpl; try by intros [= <-].
  by intros ->%py_getitem_Err.
Qed.

Lemma asOctets_no_assertion (v : asn1) (e : exn) :
  asOctets v = Err e -> e ≠ AssertionError.
Proof. destruct v; simpl; by intros [= <-]. Qed.

Lemma pbe_entrySalt_no_assertion (decoded : asn1) (e : exn) :
  pbe_entrySalt decoded = Err e -> e ≠ AssertionError.
Proof.
  unfold pbe_entrySalt.
  destruct (asn1_getitem decoded 0) as [a|e1] eqn:Ha; simpl;
    [|intros [= <-]; by eapply asn1_getitem_no_assertion].
  destruct (asn1_getitem a 1) as [b|e1] eqn:Hb; simpl;
    [|intros [= <-]; by eapply asn1_getitem_no_assertion].
  destruct (asn1_getitem b 0) as [c|e1] eqn:Hc; simpl;
    [|intros [= <-]; by eapply asn1_getitem_no_assertion].
  apply asOctets_no_assertion.
Qed.

Lemma pbe_cipherT_no_assertion (decoded : asn1) (e : exn) :
  pbe_cipherT decoded = Err e -> e ≠ AssertionError.
Proof.
  unfold pbe_cipherT.
  destruct (asn1_getitem decoded 1) as [a|e1] eqn:Ha; simpl;
    [|intros [= <-]; by eapply asn1_getitem_no_assertion].
  apply asOctets_no_assertion.
Qed.

Section MasterKeyFacts.
Context {L : Libs}.

Lemma decrypt3DES_no_assertion (globalSalt : bytes) (masterPassword : string)
    (entrySalt encryptedData : bytes) (e : exn) :
  decrypt3DES globalSalt masterPassword entrySalt encryptedData = Err e ->
  e ≠ AssertionError.
Proof.
  unfold decrypt3DES.
  destruct (DES3_new _ _) as [des|]; simpl; [|by intros [= <-]].
  by intros ->%raising_Err.
Qed.

(** X4.  A key that [getKey] returns has at most 24 bytes: it is the slice
    [key[:24]] of the decrypted material, and nothing checks that the
    material has that many. *)
Theorem getKey_at_most_24_bytes (directory : option keydb)
    (masterPassword : string) (key : bytes) :
  getKey directory masterPassword = Ok key -> (length key ≤ 24)%nat.
Proof.
  destruct directory as [conn|]; [|done]. unfold getKey.
  destruct (metadata_password conn) as [|[gs item2] rows]; [done|]. simpl.
  destruct (der_decode item2) as [[decoded rest]|]; [|done]. simpl.
  destruct (pbe_entrySalt decoded) as [es|]; [|done]. simpl.
  destruct (pbe_cipherT decoded) as [ct|]; [|done]. simpl.
  destruct (decrypt3DES gs masterPassword es ct) as [clear|]; [|done]. simpl.
  destruct (negb _); [done|]. unfold getKey_master. cbv zeta.
  destruct (negb _); [done|].
  destruct (der_decode _) as [[decoded' rest']|]; [|done]. simpl.
  destruct (pbe_entrySalt decoded') as [es'|]; [|done]. simpl.
  destruct (pbe_cipherT decoded') as [ct'|]; [|done]. simpl.
  destruct (decrypt3DES gs masterPassword es' ct') as [m|]; [|done]. simpl.
  intros [= <-]. change 24 with (Z.of_nat 24).
  rewrite py_slice_to_take, length_take. lia.
Qed.

(** X5.  [getKey] raises AssertionError only after it has accepted the
    password: the check envelope decrypted to the known plaintext, and the
    row the scan of [nssPrivate] ended on does not carry the marker. *)
Theorem getKey_assertion_after_check (directory : option keydb)
    (masterPassword : string) :
  getKey directory masterPassword = Err AssertionError ->
  exists conn globalSalt item2 rows decoded rest entrySalt cipherT,
    directory = Some conn
    /\ metadata_password conn = (globalSalt, item2) :: rows
    /\ der_decode item2 = Some (decoded, rest)
    /\ pbe_entrySalt decoded = Ok entrySalt
    /\ pbe_cipherT decoded = Ok cipherT
    /\ decrypt3DES globalSalt masterPassword entrySalt cipherT
       = Ok PASSWORD_CHECK
    /\ (nssPrivate_scan (nssPrivate conn) (globalSalt, item2)).2 ≠ MAGIC1.
Proof.
  destruct directory as [conn|]; [|done]. unfold getKey.
  destruct (metadata_password conn) as [|[gs item2] rows] eqn:Hrow; [done|].
  simpl. destruct (der_decode item2) as [[decoded rest]|] eqn:Hder; [|done].
  simpl. destruct (pbe_entrySalt decoded) as [es|e1] eqn:Hes; simpl;
    [|intros [= ->]; by destruct (pbe_entrySalt_no_assertion _ _ Hes)].
  destruct (pbe_cipherT decoded) as [ct|e1] eqn:Hct; simpl;
    [|intros [= ->]; by destruct (pbe_cipherT_no_assertion _ _ Hct)].
  destruct (decrypt3DES gs masterPassword es ct) as [clear|e1] eqn:Hclear;
    simpl; [|intros [= ->]; by destruct (decrypt3DES_no_assertion _ _ _ _ _ Hclear)].
  case_bool_decide as Hcheck; simpl; [subst clear|done].
  unfold getKey_master. cbv zeta. case_bool_decide as Hscan; simpl.
  - destruct (der_decode (nssPrivate_scan _ _).1) as [[decoded' rest']|];
      [|done]. simpl.
    destruct (pbe_entrySalt decoded') as [es'|e1] eqn:Hes'; simpl;
      [|intros [= ->]; by destruct (pbe_entrySalt_no_assertion _ _ Hes')].
    destruct (pbe_cipherT decoded') as [ct'|e1] eqn:Hct'; simpl;
      [|intros [= ->]; by destruct (pbe_cipherT_no_assertion _ _ Hct')].
    destruct (decrypt3DES gs masterPassword es' ct') as [m|e1] eqn:Hm;
      simpl; [done|].
    intros [= ->]. by destruct (decrypt3DES_no_assertion _ _ _ _ _ Hm).
  - intros _. by exists conn, gs, item2, rows, decoded, rest, es, ct.
Qed.

(** X6.  [askpass] tries the empty password first, without a prompt, and
    then each answer to the prompt in turn.  It stops at the first password
    for which [getKey] does not raise WrongPassword, with the outcome of
    [getKey] for that password, be it a key or another exception; the
    answers after it are not asked for. *)
Theorem askpass_first_accepted (directory : option keydb) :
  (forall answers,
     getKey directory EmptyString ≠ Err WrongPassword ->
     askpass directory answers = Some (getKey directory EmptyString, answers))
  /\ (forall wrong good rest,
        getKey directory EmptyString = Err WrongPassword ->
        Forall (fun pw => getKey directory pw = Err WrongPassword) wrong ->
        getKey directory good ≠ Err WrongPassword ->
        askpass directory (wrong ++ good :: rest)
        = Some (getKey directory good, rest)).
Proof.
  assert (Hstop : forall password answers,
    getKey directory password ≠ Err WrongPassword ->
    askpass_loop directory password answers
    = Some (getKey directory password, answers)).
  { intros password answers Hok. destruct answers; simpl;
      by destruct (getKey directory password) as [key|[]]. }
  split; [intros answers; apply Hstop|].
  intros wrong good rest Hempty Hwrong Hgood. unfold askpass.
  generalize dependent (EmptyString).
  induction Hwrong as [|pw wrong Hpw _ IH]; intros password Hpassword; simpl.
  - rewrite Hpassword. by apply Hstop.
  - rewrite Hpassword. by apply IH.
Qed.

(** X7.  [askpass] never ends with WrongPassword, and it is back at the
    prompt with all answers used up exactly when the empty password and
    every answer were wrong. *)
Theorem askpass_outcome (directory : option keydb) (answers : list string) :
  (forall outcome rest,
     askpass directory answers = Some (outcome, rest) ->
     outcome ≠ Err WrongPassword)
  /\ (askpass directory answers = None
      <-> Forall (fun pw => getKey directory pw = Err WrongPassword)
            (EmptyString :: answers)).
Proof.
  unfold askpass. generalize (EmptyString).
  induction answers as [|a answers IH]; intros password; simpl;
    rewrite Forall_cons.
  - destruct (getKey directory password) as [key|e] eqn:Hk.
    + split; [by intros ? ? [= <- _]|]. split; [done|]. by intros [? _].
    + destruct (decide (e = WrongPassword)) as [->|Hne].
      * split; [done|]. split; [|done]. intros _. split; [done|constructor].
      * split.
        -- destruct e; try done; intros ? ? [= <- _]; congruence.
        -- split; [by destruct e|]. intros [[= ?] _]. done.
  - destruct (getKey directory password) as [key|e] eqn:Hk.
    + split; [by intros ? ? [= <- _]|]. split; [done|]. by intros [? _].
    + destruct (decide (e = WrongPassword)) as [->|Hne].
      * destruct (IH a) as [IH1 IH2]. split; [exact IH1|].
        rewrite IH2. split; [by intros Hall|by intros [_ Hall]].
      * split.
        -- destruct e; try done; intros ? ? [= <- _]; congruence.
        -- split; [by destruct e|]. intros [[= ?] _]. done.
Qed.

End MasterKeyFacts.

Lemma getKey_at_most_24_bytes_witness :
  (length (take 24 Fixture.master_material) ≤ 24)%nat.
Proof.
  apply (@getKey_at_most_24_bytes Sample.libs (Some Fixture.store) "secret").
  vm_compute. reflexivity.
Defined.

Lemma getKey_assertion_after_check_witness :
  exists conn globalSalt item2 rows decoded rest entrySalt cipherT,
    Some Fixture.broken_store = Some conn
    /\ metadata_password conn = (globalSalt, item2) :: rows
    /\ @der_decode Sample.libs item2 = Some (decoded, rest)
    /\ pbe_entrySalt decoded = Ok entrySalt
    /\ pbe_cipherT decoded = Ok cipherT
    /\ decrypt3DES (L := Sample.libs) globalSalt "secret" entrySalt cipherT
       = Ok PASSWORD_CHECK
    /\ (nssPrivate_scan (nssPrivate conn) (globalSalt, item2)).2 ≠ MAGIC1.
Proof.
  apply (@getKey_assertion_after_check Sample.libs (Some Fixture.broken_store)
           "secret").
  vm_compute. reflexivity.
Defined.

Lemma askpass_first_accepted_witness :
  askpass (L := Sample.libs) (Some Fixture.store)
    (["wrong"; "guess"] ++ "secret" :: ["unused"])
  = Some (getKey (L := Sample.libs) (Some Fixture.store) "secret", ["unused"]).
Proof.
  apply (proj2 (@askpass_first_accepted Sample.libs (Some Fixture.store))
           ["wrong"; "guess"] "secret" ["unused"]).
  - vm_compute. reflexivity.
  - repeat constructor; vm_compute; reflexivity.
  - vm_compute. discriminate.
Defined.

(** ** Lookup, removal and addition *)

Section DocumentFacts.
Context {L : Libs}.

Lemma export_rows_triples_inv (key : bytes) (rows : list (gmap string value))
    (outs : list (gmap string value)) :
  export_rows key rows ["hostname"; "login"; "password"] [] = Ok outs ->
  exists ts,
    Forall2 (fun row t => row_triple key row = Ok t) rows ts
    /\ outs = triple_dict <$> ts.
Proof.
  intros (new & -> & Hnew)%export_rows_spec. simpl.
  induction Hnew as [|row out rows new Hout _ (ts & Hts & ->)].
  - by exists [].
  - rewrite export_fields_triple in Hout.
    destruct (row_triple key row) as [t|] eqn:Ht; [|done].
    injection Hout as <-. exists (t :: ts). split; [by constructor|done].
Qed.

(** What a successful lookup says about the document. *)
Lemma getLogin_Ok (key : bytes) (jsonLogins : document) (login : credential)
    (i : nat) :
  (getLogin (cred_hostname login) (cred_login login) (cred_password login)
     key jsonLogins).2 = Ok i ->
  exists rows ts,
    logins jsonLogins = Some rows
    /\ Forall2 (fun row t => row_triple key row = Ok t) rows ts
    /\ ts !! i = Some (credential_triple login)
    /\ Forall (fun t => t ≠ credential_triple login) (take i ts).
Proof.
  rewrite getLogin_index. unfold exportLogins.
  destruct (logins jsonLogins) as [rows|]; [|done]. cbn [snd].
  destruct (export_rows key rows _ []) as [outs|] eqn:Houts; [|done].
  apply export_rows_triples_inv in Houts as (ts & Hts & ->).
  intros (y & Hy & Heq & Hfirst)%py_index_Ok.
  rewrite list_lookup_fmap in Hy.
  destruct (ts !! i) as [t|] eqn:Ht; [|done]. injection Hy as <-.
  apply dict_eq_triple in Heq as ->.
  exists rows, ts. repeat split; try done.
  rewrite <- fmap_take in Hfirst. apply Forall_fmap in Hfirst.
  eapply Forall_impl; [exact Hfirst|]. intros t Hne ->. simpl in Hne.
  by rewrite (proj2 (dict_eq_triple _ _) eq_refl) in Hne.
Qed.

Lemma py_index_first (ts : list (value * string * string))
    (login : credential) (i : nat) :
  ts !! i = Some (credential_triple login) ->
  Forall (fun t => t ≠ credential_triple login) (take i ts) ->
  py_index (triple_dict <$> ts) (credential_dict login) = Ok i.
Proof.
  intros Ht Hfirst. apply py_index_Ok.
  exists (triple_dict (credential_triple login)).
  split; [by rewrite list_lookup_fmap, Ht|].
  split; [by apply dict_eq_triple|].
  rewrite <- fmap_take. apply Forall_fmap.
  eapply Forall_impl; [exact Hfirst|]. intros t Hne. simpl.
  apply not_true_is_false. by rewrite dict_eq_triple.
Qed.

(** X8.  When [getLogin] returns an index, the document has a 'logins'
    list whose records all decrypt, the record at that index decrypts to
    the triple asked for, and no record before it does. *)
Theorem getLogin_first_match (url login password : string) (key : bytes)
    (jsonLogins : document) (i : nat) :
  (getLogin url login password key jsonLogins).2 = Ok i ->
  exists rows ts,
    logins jsonLogins = Some rows
    /\ Forall2 (fun row t => row_triple key row = Ok t) rows ts
    /\ ts !! i = Some (VStr url, login, password)
    /\ Forall (fun t => t ≠ (VStr url, login, password)) (take i ts).
Proof.
  apply (getLogin_Ok key jsonLogins
           {| cred_hostname := url; cred_login := login;
              cred_password := password |}).
Qed.

(** X9.  A [delNewLogin] that succeeds has deleted exactly the first record
    whose decrypted triple equals the triple of [login], has left the other
    records as they were and in their order, and has taken one from the
    counter. *)
Theorem delNewLogin_removes_first_match (key : bytes) (jsonLogins : document)
    (login : credential) (after : document) :
  (delNewLogin key jsonLogins login).2 = (Ok (), after) ->
  exists rows n ts i,
    logins jsonLogins = Some rows /\ nextId jsonLogins = Some n
    /\ Forall2 (fun row t => row_triple key row = Ok t) rows ts
    /\ ts !! i = Some (credential_triple login)
    /\ Forall (fun t => t ≠ credential_triple login) (take i ts)
    /\ after = mk_document (delete i rows) (n - 1).
Proof.
  unfold delNewLogin.
  pose proof (getLogin_Ok key jsonLogins login) as Hget.
  destruct (getLogin _ _ _ _ _) as [err [i|e]]; cbn [snd] in *; [|done].
  destruct (Hget i eq_refl) as (rows & ts & Hrows & Hts & Hi & Hfirst).
  rewrite Hrows. case_bool_decide; [|done]. cbn [nextId logins].
  destruct (nextId jsonLogins) as [n|]; [|done]. intros [= <-].
  by exists rows, n, ts, i.
Qed.

(** X10.  The removal is not atomic: on a document that has 'logins' but no
    'nextId', [delNewLogin] for a stored triple raises KeyError after it
    has deleted the record. *)
Theorem delNewLogin_without_nextId (key : bytes) (jsonLogins : document)
    (login : credential) (rows : list (gmap string value))
    (ts : list (value * string * string)) (i : nat) :
  logins jsonLogins = Some rows -> nextId jsonLogins = None ->
  Forall2 (fun row t => row_triple key row = Ok t) rows ts ->
  ts !! i = Some (credential_triple login) ->
  Forall (fun t => t ≠ credential_triple login) (take i ts) ->
  (delNewLogin key jsonLogins login).2
  = (Err KeyError, {| logins := Some (delete i rows); nextId := None |}).
Proof.
  intros Hrows Hn Hts Hi Hfirst.
  assert (Hget : (getLogin (cred_hostname login) (cred_login login)
                    (cred_password login) key jsonLogins).2 = Ok i).
  { rewrite getLogin_index. unfold exportLogins. rewrite Hrows. cbn [snd].
    rewrite (export_rows_triples _ _ _ Hts). by apply py_index_first. }
  unfold delNewLogin.
  destruct (getLogin _ _ _ _ _) as [err found]. cbn [snd] in *. subst found.
  rewrite Hrows. apply lookup_lt_Some in Hi.
  rewrite <- (Forall2_length _ _ _ Hts) in Hi.
  rewrite bool_decide_true by done. cbn [nextId logins]. by rewrite Hn.
Qed.

(** X16.  Without a 'logins' key, [delNewLogin] prints the diagnostic of
    [exportLogins], raises the ValueError of the lookup (not KeyError) and
    leaves the document as it was. *)
Theorem delNewLogin_without_logins (key : bytes) (jsonLogins : document)
    (login : credential) :
  logins jsonLogins = None ->
  delNewLogin key jsonLogins login
  = (["error: no 'logins' key in logins.json"], (Err ValueError, jsonLogins)).
Proof.
  intros Hrows. unfold delNewLogin, getLogin, exportLogins. by rewrite Hrows.
Qed.

(** X11.  On a document whose counter, when present, is an integer, the
    addition is atomic: when [addNewLogin] raises, for a missing 'nextId'
    or 'logins' or a failed encryption, the document is as it was.  (These
    are the documents of this model; on a counter that is present and not a
    number, line 201 raises after the append of line 200.) *)
Theorem addNewLogin_raises_unchanged (env : add_env) (key : bytes)
    (jsonLogins : document) (login : credential) (e : exn) (after : document) :
  addNewLogin env key jsonLogins login = (Err e, after) -> after = jsonLogins.
Proof.
  unfold addNewLogin. destruct (nextId jsonLogins) as [n|] eqn:Hn;
    [|by intros [= _ <-]].
  destruct (encodeLoginData key _ (cred_login login)) as [eu|]; simpl;
    [|by intros [= _ <-]].
  destruct (encodeLoginData key _ (cred_password login)) as [ep|]; simpl;
    [|by intros [= _ <-]].
  destruct (logins jsonLogins) as [rows|]; [|by intros [= _ <-]].
  done.
Qed.

(** X13.  When neither 'login' nor 'password' is requested, nothing is
    decrypted: [exportLogins] gives the same result under every key. *)
Theorem exportLogins_key_independent (key key' : bytes)
    (jsonLogins : document) (fields : list string) :
  "login" ∉ fields -> "password" ∉ fields ->
  exportLogins key jsonLogins fields = exportLogins key' jsonLogins fields.
Proof.
  intros Hl Hp.
  assert (Hfields : forall fs row blank,
    "login" ∉ fs -> "password" ∉ fs ->
    export_fields key row fs blank = export_fields key' row fs blank).
  { induction fs as [|f fs IH]; intros row blank Hl' Hp'; [done|].
    apply not_elem_of_cons in Hl' as [Hfl Hl'].
    apply not_elem_of_cons in Hp' as [Hfp Hp']. simpl.
    unfold export_field. rewrite !(bool_decide_false (f = _)) by done.
    destruct (row_getitem row f) as [v|]; simpl; [|done]. by apply IH. }
  unfold exportLogins. destruct (logins jsonLogins) as [rows|]; [|done].
  f_equal. generalize (@nil (gmap string value)).
  induction rows as [|row rows IH]; intros acc; simpl; [done|].
  rewrite (Hfields fields row ∅ Hl Hp).
  destruct (export_fields key' row fields ∅); simpl; [apply IH|done].
Qed.

(** X14.  Up to dict equality ([==]), a successful export depends on which
    fields are requested, not on their order or on repetitions among them:
    field lists with the same members give lists of records that compare
    equal.  (The order of the keys inside a record follows the field list;
    the maps here do not represent it.) *)
Theorem exportLogins_field_set (key : bytes) (jsonLogins : document)
    (fields fields' : list string) (outs : list (gmap string value)) :
  (forall f, f ∈ fields <-> f ∈ fields') ->
  (exportLogins key jsonLogins fields).2 = Ok outs
  <-> (exportLogins key jsonLogins fields').2 = Ok outs.
Proof.
  intros Hsame.
  assert (Hrow : forall row out,
    export_fields key row fields ∅ = Ok out
    <-> export_fields key row fields' ∅ = Ok out).
  { intros row out. rewrite !export_fields_spec. split.
    - intros [Hin Hout]. split; intros f Hf.
      + apply Hin. by apply Hsame.
      + apply Hout. by rewrite Hsame.
    - intros [Hin Hout]. split; intros f Hf.
      + apply Hin. by apply Hsame.
      + apply Hout. by rewrite <- Hsame. }
  unfold exportLogins. destruct (logins jsonLogins) as [rows|]; [|done].
  cbn [snd]. rewrite !export_rows_spec. split.
  - intros (new & -> & Hnew). exists new. split; [done|].
    eapply Forall2_impl; [exact Hnew|]. intros row out. apply Hrow.
  - intros (new & -> & Hnew). exists new. split; [done|].
    eapply Forall2_impl; [exact Hnew|]. intros row out. apply Hrow.
Qed.

Context {laws : LibsLaws L}.

(** X12.  After a successful [addNewLogin] the export of hostname, login
    and password is the export before it followed by the new credential,
    and the counter is one more: on a document with both keys whose records
    decrypt, under a key the cipher accepts. *)
Theorem addNewLogin_then_export (env : add_env) (key : bytes)
    (jsonLogins : document) (login : credential)
    (rows outs : list (gmap string value)) (n : Z) :
  des3_key_ok key = true ->
  length (env_iv_username env) = 8%nat ->
  length (env_iv_password env) = 8%nat ->
  utf8_valid (str_encode (cred_login login)) = true ->
  utf8_valid (str_encode (cred_password login)) = true ->
  logins jsonLogins = Some rows -> nextId jsonLogins = Some n ->
  (exportLogins key jsonLogins ["hostname"; "login"; "password"]).2 = Ok outs ->
  exists after,
    addNewLogin env key jsonLogins login = (Ok (), after)
    /\ nextId after = Some (n + 1)
    /\ exportLogins key after ["hostname"; "login"; "password"]
       = ([], Ok (outs ++ [credential_dict login])).
Proof.
  intros Hkey Hivu Hivp Hu Hp Hrows Hn Houts.
  unfold exportLogins in Houts. rewrite Hrows in Houts. cbn [snd] in Houts.
  apply export_rows_triples_inv in Houts as (ts & Hts & ->).
  rewrite (document_eta _ _ _ Hrows Hn).
  destruct (addNewLogin_Ok env key rows n login Hkey Hivu Hivp Hu Hp)
    as (entry & Hadd & _ & Hentry).
  eexists. split; [exact Hadd|]. split; [done|].
  unfold exportLogins, mk_document. cbn [logins]. f_equal.
  rewrite (export_rows_triples key (rows ++ [entry])
             (ts ++ [credential_triple login])).
  - by rewrite fmap_app, <- triple_dict_credential.
  - apply Forall2_app; [done|]. by repeat constructor.
Qed.

End DocumentFacts.

Lemma getLogin_first_match_witness :
  exists rows ts,
    logins Fixture.doc_alice_twice = Some rows
    /\ Forall2 (fun row t => row_triple (L := Sample.libs) Fixture.key row = Ok t)
         rows ts
    /\ ts !! 0%nat = Some (VStr "https://example.org", "alice", "wonderland")
    /\ Forall (fun t => t ≠ (VStr "https://example.org", "alice", "wonderland"))
         (take 0 ts).
Proof.
  apply (@getLogin_first_match Sample.libs "https://example.org" "alice"
           "wonderland" Fixture.key Fixture.doc_alice_twice 0%nat).
  vm_compute. reflexivity.
Defined.

Lemma delNewLogin_removes_first_match_witness :
  exists rows n ts i,
    logins Fixture.doc_alice_twice = Some rows
    /\ nextId Fixture.doc_alice_twice = Some n
    /\ Forall2 (fun row t => row_triple (L := Sample.libs) Fixture.key row = Ok t)
         rows ts
    /\ ts !! i = Some (credential_triple Fixture.alice)
    /\ Forall (fun t => t ≠ credential_triple Fixture.alice) (take i ts)
    /\ mk_document [Fixture.alice_second] 1 = mk_document (delete i rows) (n - 1).
Proof.
  apply (@delNewLogin_removes_first_match Sample.libs Fixture.key
           Fixture.doc_alice_twice Fixture.alice
           (mk_document [Fixture.alice_second] 1)).
  vm_compute. reflexivity.
Defined.

Lemma delNewLogin_without_nextId_witness :
  (delNewLogin (L := Sample.libs) Fixture.key Incomplete.doc_no_counter
     Fixture.alice).2
  = (Err KeyError, {| logins := Some (delete 0%nat [Fixture.alice_first]);
                      nextId := None |}).
Proof.
  apply (@delNewLogin_without_nextId Sample.libs Fixture.key
           Incomplete.doc_no_counter Fixture.alice [Fixture.alice_first]
           [credential_triple Fixture.alice] 0%nat).
  - vm_cast_no_check (eq_refl (Some [Fixture.alice_first])).
  - reflexivity.
  - constructor; [|constructor].
    vm_cast_no_check (eq_refl (Ok (A := value * string * string)
                                 (credential_triple Fixture.alice))).
  - reflexivity.
  - constructor.
Defined.

Lemma delNewLogin_without_logins_witness :
  delNewLogin (L := Sample.libs) Fixture.key Incomplete.doc_no_logins
    Fixture.alice
  = (["error: no 'logins' key in logins.json"],
     (Err ValueError, Incomplete.doc_no_logins)).
Proof.
  apply (@delNewLogin_without_logins Sample.libs Fixture.key
           Incomplete.doc_no_logins Fixture.alice).
  reflexivity.
Defined.

Lemma addNewLogin_raises_unchanged_witness :
  (addNewLogin (L := Sample.libs) Fixture.env1 [x01%byte] Fixture.doc_alice
     Fixture.bob).2
  = Fixture.doc_alice.
Proof.
  apply (@addNewLogin_raises_unchanged Sample.libs Fixture.env1 [x01%byte]
           Fixture.doc_alice Fixture.bob ValueError).
  vm_compute. reflexivity.
Defined.

Lemma exportLogins_key_independent_witness :
  exportLogins (L := Sample.libs) Fixture.key Fixture.doc_alice
    ["id"; "hostname"]
  = exportLogins (L := Sample.libs) [] Fixture.doc_alice ["id"; "hostname"].
Proof.
  apply (@exportLogins_key_independent Sample.libs Fixture.key []
           Fixture.doc_alice ["id"; "hostname"]).
  - intros Hin. repeat (apply elem_of_cons in Hin as [Hin|Hin]; [done|]).
    by apply elem_of_nil in Hin.
  - intros Hin. repeat (apply elem_of_cons in Hin as [Hin|Hin]; [done|]).
    by apply elem_of_nil in Hin.
Defined.

Lemma exportLogins_field_set_witness :
  (exportLogins (L := Sample.libs) Fixture.key Fixture.doc_alice
     ["hostname"; "id"; "id"]).2
  = Ok [<["id" := VInt 0]> {["hostname" := VStr "https://example.org"]}].
Proof.
  apply (@exportLogins_field_set Sample.libs Fixture.key Fixture.doc_alice
           ["id"; "hostname"] ["hostname"; "id"; "id"]).
  - intros f. rewrite !elem_of_cons, !elem_of_nil. tauto.
  - vm_compute. reflexivity.
Defined.

Lemma addNewLogin_then_export_witness :
  exists after,
    addNewLogin (L := Sample.libs) Fixture.env2 Fixture.key Fixture.doc_alice
      Fixture.bob
    = (Ok (), after)
    /\ nextId after = Some (1 + 1)
    /\ exportLogins (L := Sample.libs) Fixture.key after
         ["hostname"; "login"; "password"]
       = ([], Ok ([credential_dict Fixture.alice]
                  ++ [credential_dict Fixture.bob])).
Proof.
  apply (@addNewLogin_then_export Sample.libs SampleFacts.laws Fixture.env2
           Fixture.key Fixture.doc_alice Fixture.bob [Fixture.alice_first]);
    try reflexivity; vm_compute; reflexivity.
Defined.
